(** * geocode_simple.py: geocoding of the evacuation-site table

    A shallow embedding of [src/geocode_simple.py].  The script reads a
    CSV table of facility names and addresses, asks two HTTP geocoders
    for coordinates (GSI first, Nominatim as fallback) and writes a
    GeoJSON-like document.

    Python values are modelled by [pyval], exceptions by [exn], and the
    effects of the script (printing, sleeping, HTTP requests, file
    access) by a state-and-error monad [M] over the trace of events
    emitted so far. *)

From Stdlib Require Import ZArith QArith String Ascii List Lia.
From Stdlib Require Import Floats.SpecFloat.
From stdpp Require Import base option list gmap strings.

Set Warnings "-register-all".

Local Open Scope string_scope.
Local Open Scope list_scope.

(** ** Python values *)

(** The values [json.loads] can produce.  [PStr] holds the UTF-8 bytes of
    a Python [str]; [PDict] holds the items of a [dict] in insertion
    order (keys of a JSON object are always strings). *)
Inductive pyval : Type :=
| PNone
| PBool (b : bool)
| PInt (z : Z)
| PFloat (f : spec_float)
| PStr (s : string)
| PList (l : list pyval)
| PDict (d : list (string * pyval)).

(** The exceptions the script can meet; all are subclasses of Python's
    [Exception] ([OSError] covers [URLError], timeouts and
    [FileNotFoundError]; [ValueError] covers [JSONDecodeError] and
    [UnicodeDecodeError]; [CsvError] is [csv.Error]). *)
Inductive exn : Type :=
| KeyError (k : pyval)
| IndexError
| TypeError
| AttributeError
| ValueError
| OverflowError
| OSError (msg : string)
| CsvError (msg : string).

Inductive outcome (A : Type) : Type :=
| Ok (a : A)
| Raise (e : exn).
Arguments Ok {A} a.
Arguments Raise {A} e.

Declare Scope py_scope.
Delimit Scope py_scope with py.

(** ** Python primitives used by the script *)

Module Py.

(** A byte of a UTF-8 sequence that continues a code point. *)
Definition is_continuation (a : ascii) : bool :=
  let n := nat_of_ascii a in (128 <=? n)%nat && (n <? 192)%nat.

Fixpoint chars_aux (s : string) : string * list string :=
  match s with
  | EmptyString => (EmptyString, [])
  | String a s' =>
      let '(pend, cs) := chars_aux s' in
      if is_continuation a then (String a pend, cs)
      else (EmptyString, String a pend :: cs)
  end.

(** The code points of a [str], each as a one-character [str]. *)
Definition chars (s : string) : list string :=
  let '(pend, cs) := chars_aux s in
  match pend with
  | EmptyString => cs
  | _ => pend :: cs
  end.

(** [float(n)] for an [int]: round to nearest even in binary64;
    [None] where Python raises [OverflowError]. *)
Definition float_of_int (z : Z) : option spec_float :=
  match binary_normalize 53 1024 z 0 false with
  | S754_infinity _ => None
  | f => Some f
  end.

(** [bool(v)]. *)
Definition truthy (v : pyval) : bool :=
  match v with
  | PNone => false
  | PBool b => b
  | PInt z => negb (z =? 0)%Z
  | PFloat (S754_zero _) => false
  | PFloat _ => true
  | PStr s => negb (String.eqb s EmptyString)
  | PList l => match l with [] => false | _ => true end
  | PDict d => match d with [] => false | _ => true end
  end.

(** [len(v)]. *)
Definition len (v : pyval) : outcome nat :=
  match v with
  | PStr s => Ok (length (chars s))
  | PList l => Ok (length l)
  | PDict d => Ok (length d)
  | _ => Raise TypeError
  end.

(** [v[i]] for an [int] index [i >= 0]. *)
Definition index (v : pyval) (i : nat) : outcome pyval :=
  match v with
  | PList l => match l !! i with Some x => Ok x | None => Raise IndexError end
  | PStr s => match chars s !! i with
              | Some c => Ok (PStr c)
              | None => Raise IndexError
              end
  | PDict _ => Raise (KeyError (PInt (Z.of_nat i)))
  | _ => Raise TypeError
  end.

Fixpoint assoc (k : string) (d : list (string * pyval)) : option pyval :=
  match d with
  | [] => None
  | (k', v) :: d' => if String.eqb k k' then Some v else assoc k d'
  end.

(** [v[k]] for a [str] key [k]. *)
Definition getitem (v : pyval) (k : string) : outcome pyval :=
  match v with
  | PDict d => match assoc k d with Some x => Ok x | None => Raise (KeyError (PStr k)) end
  | _ => Raise TypeError
  end.

(** [v.get(k, default)]: only a [dict] has the method. *)
Definition get (v : pyval) (k : string) (default : pyval) : outcome pyval :=
  match v with
  | PDict d => Ok (match assoc k d with Some x => x | None => default end)
  | _ => Raise AttributeError
  end.

Definition float_of_bool (b : bool) : spec_float :=
  if b then S754_finite false 4503599627370496 (-52) else S754_zero false.

Section Float.
(** [float(s)] for a [str], kept abstract: the parsed value, or
    [None] where Python raises [ValueError]. *)
Variable float_of_str : string -> option spec_float.

(** [float(v)]. *)
Definition float (v : pyval) : outcome pyval :=
  match v with
  | PFloat f => Ok (PFloat f)
  | PInt z => match float_of_int z with
              | Some f => Ok (PFloat f)
              | None => Raise OverflowError
              end
  | PBool b => Ok (PFloat (float_of_bool b))
  | PStr s => match float_of_str s with
              | Some f => Ok (PFloat f)
              | None => Raise ValueError
              end
  | _ => Raise TypeError
  end.
End Float.

(** Evaluation of the replacement field [{v:.6f}] of an f-string; the
    text produced is not modelled, only whether formatting raises. *)
Definition format_6f (v : pyval) : outcome unit :=
  match v with
  | PFloat _ => Ok ()
  | PBool _ => Ok ()
  | PInt z => match float_of_int z with
              | Some _ => Ok ()
              | None => Raise OverflowError
              end
  | PStr _ => Raise ValueError
  | _ => Raise TypeError
  end.

(** ** [urllib.parse.urlencode] *)

Definition is_unreserved (a : ascii) : bool :=
  let n := nat_of_ascii a in
  ((48 <=? n) && (n <=? 57) || (65 <=? n) && (n <=? 90)
   || (97 <=? n) && (n <=? 122))%nat
  || (n =? 95)%nat || (n =? 46)%nat || (n =? 45)%nat || (n =? 126)%nat.

Definition hex_digit (n : nat) : ascii :=
  ascii_of_nat (if (n <? 10)%nat then 48 + n else 55 + n).

(** [quote_plus]: unreserved bytes are kept, a space becomes [+],
    every other byte becomes [%XX]. *)
Fixpoint quote_plus (s : string) : string :=
  match s with
  | EmptyString => EmptyString
  | String a s' =>
      if is_unreserved a then String a (quote_plus s')
      else if (nat_of_ascii a =? 32)%nat then String "+" (quote_plus s')
      else String "%" (String (hex_digit (nat_of_ascii a / 16))
                        (String (hex_digit (nat_of_ascii a mod 16))
                           (quote_plus s')))
  end.

Fixpoint urlencode (params : list (string * string)) : string :=
  match params with
  | [] => EmptyString
  | [(k, v)] => quote_plus k ++ "=" ++ quote_plus v
  | (k, v) :: rest => quote_plus k ++ "=" ++ quote_plus v ++ "&" ++ urlencode rest
  end.

End Py.

(** ** Data model of the script *)

(** A value read from a CSV row: a [str], or [None] where
    [csv.DictReader] fills a short row with its [restval]. *)
Definition cell : Type := option string.

(** [str(c)], as [urlencode] applies it to a parameter value. *)
Definition str_of_cell (c : cell) : string :=
  match c with
  | Some s => s
  | None => "None"
  end.

(** The pair [(lat, lon)] a geocoder returns. *)
Definition coords : Type := (pyval * pyval)%type.

(** The dict appended to [sites]. *)
Record site : Type := Site {
  site_name : cell;
  site_address : cell;
  site_latitude : pyval;
  site_longitude : pyval
}.

(** The dict appended to [failed_sites]. *)
Record failed_site : Type := FailedSite {
  failed_name : cell;
  failed_address : cell
}.

(** A GeoJSON feature: [properties.name], [properties.address] and
    [geometry.coordinates]; the [type] fields are the constants
    ["Feature"] and ["Point"]. *)
Record feature : Type := Feature {
  prop_name : cell;
  prop_address : cell;
  coordinates : list pyval
}.

Record metadata : Type := Metadata {
  title : string;
  total_sites : nat;
  failed_geocoding : nat;
  generated_at : string
}.

(** The dict [result]; [failed_sites_key] is [None] when the dict has
    no ["failed_sites"] key. *)
Record result_doc : Type := ResultDoc {
  doc_type : string;
  features : list feature;
  meta : metadata;
  failed_sites_key : option (list failed_site)
}.

(** ** Effects *)

Inductive provider : Type := GSI | Nominatim.

Record request : Type := Request {
  full_url : string;
  headers : list (string * string);
  timeout : Z
}.

(** What one request yields: [Failed e] when [urlopen], [read],
    [decode] or [json.loads] raises [e], else the decoded JSON value. *)
Inductive response : Type :=
| Failed (e : exn)
| Payload (data : pyval).

(** Lines written to standard output, by their f-string. *)
Inductive message : Type :=
| MsgNominatimError (address : cell) (e : exn)
| MsgGsiError (address : cell) (e : exn)
| MsgGeocoding (address : cell)
| MsgSuccessGsi (c : coords)
| MsgSuccessNominatim (c : coords)
| MsgFailure
| MsgProgress (idx : nat)
| MsgRule
| MsgDone
| MsgSucceeded (n : nat)
| MsgFailedCount (n : nat)
| MsgOutputFile (path : string)
| MsgFailedHeader
| MsgFailedSite (name address : cell)
| MsgStart.

Inductive event : Type :=
| Print (m : message)
| Sleep (seconds : Q)
| HttpGet (p : provider) (r : request)
| OpenRead (path : string)
| OpenWrite (path : string)
| JsonDump (path : string) (doc : result_doc).

(** An opened table, by what [csv.reader] gets out of it while the loop
    consumes it: the records it yields, in order, and how the reading
    ends, at the end of the file ([None]) or with the exception raised
    by the read that follows the last record. *)
Record csv_file : Type := CsvFile {
  file_records : list (list string);
  file_error : option exn
}.

(** The environment of a run.  A provider's answer may depend on
    everything that happened before the request.  For a table,
    [csv_records] is [Raise e] when [open] raises [e], and otherwise
    the records that can be read from the file, up to its end or up to
    the first read that raises; [csv_error] is that read's exception
    ([UnicodeDecodeError], [csv.Error], [OSError]), [None] for a file
    that is read to its end. *)
Record world : Type := World {
  http : provider -> list event -> request -> response;
  csv_records : string -> outcome (list (list string));
  csv_error : string -> option exn;
  writable : string -> bool;
  strftime : list event -> string
}.

(** Computations: the trace so far goes in, a value or an exception
    comes out with the extended trace. *)
Definition M (A : Type) : Type := list event -> outcome A * list event.

Definition ret {A} (a : A) : M A := fun tr => (Ok a, tr).

Definition bind {A B} (m : M A) (k : A -> M B) : M B :=
  fun tr =>
    match m tr with
    | (Ok a, tr') => k a tr'
    | (Raise e, tr') => (Raise e, tr')
    end.

Definition lift {A} (o : outcome A) : M A := fun tr => (o, tr).

Definition emit (e : event) : M unit := fun tr => (Ok (), tr ++ [e]).

(** [try: body / except Exception as e: handler e]. *)
Definition try_except {A} (body : M A) (handler : exn -> M A) : M A :=
  fun tr =>
    match body tr with
    | (Ok a, tr') => (Ok a, tr')
    | (Raise e, tr') => handler e tr'
    end.

Notation "'do' x <- c ; k" := (bind c (fun x => k))
  (at level 10, x name, c at level 100, k at level 200) : py_scope.
Notation "'do' ' p <- c ; k" := (bind c (fun x => match x with p => k end))
  (at level 10, p pattern, c at level 100, k at level 200) : py_scope.

Local Open Scope py_scope.

Definition print (m : message) : M unit := emit (Print m).
Definition sleep (seconds : Q) : M unit := emit (Sleep seconds).

(** ** The script *)

Section Script.

Variable float_of_str : string -> option spec_float.
Variable W : world.

(** [urlopen(req, timeout=...)] followed by
    [json.loads(response.read().decode('utf-8'))]. *)
Definition urlopen_json (p : provider) (req : request) : M pyval :=
  fun tr =>
    match http W p tr req with
    | Failed e => (Raise e, tr ++ [HttpGet p req])
    | Payload data => (Ok data, tr ++ [HttpGet p req])
    end.

Definition nominatim_params (address : cell) : list (string * string) :=
  [("q", str_of_cell address); ("format", "json"); ("limit", "1");
   ("countrycodes", "jp")].

Definition nominatim_request (address : cell) : request :=
  {| full_url := "https://nominatim.openstreetmap.org/search?"
                 ++ Py.urlencode (nominatim_params address);
     headers := [("User-Agent", "EvacuationSiteMapper/1.0")];
     timeout := 10 |}.

(** The body of the [try] of [geocode_address_nominatim]; [Ok None]
    is falling through to the final [return None]. *)
Definition geocode_address_nominatim_try (address : cell) : M (option coords) :=
  do data <- urlopen_json Nominatim (nominatim_request address);
  if Py.truthy data then
    do n <- lift (Py.len data);
    if (0 <? n)%nat then
      do first <- lift (Py.index data 0);
      do lat_field <- lift (Py.getitem first "lat");
      do lat <- lift (Py.float float_of_str lat_field);
      do lon_field <- lift (Py.getitem first "lon");
      do lon <- lift (Py.float float_of_str lon_field);
      ret (Some (lat, lon))
    else ret None
  else ret None.

Definition geocode_address_nominatim (address : cell) : M (option coords) :=
  try_except (geocode_address_nominatim_try address)
    (fun e => do _ <- print (MsgNominatimError address e); ret None).

Definition gsi_params (address : cell) : list (string * string) :=
  [("q", str_of_cell address)].

Definition gsi_request (address : cell) : request :=
  {| full_url := "https://msearch.gsi.go.jp/address-search/AddressSearch?"
                 ++ Py.urlencode (gsi_params address);
     headers := [];
     timeout := 10 |}.

(** The body of the [try] of [geocode_address_gsi]. *)
Definition geocode_address_gsi_try (address : cell) : M (option coords) :=
  do data <- urlopen_json GSI (gsi_request address);
  if Py.truthy data then
    do n <- lift (Py.len data);
    if (0 <? n)%nat then
      do first <- lift (Py.index data 0);
      do geometry <- lift (Py.get first "geometry" (PDict []));
      do coordinates <- lift (Py.get geometry "coordinates" (PList []));
      do m <- lift (Py.len coordinates);
      if (2 <=? m)%nat then
        do lon <- lift (Py.index coordinates 0);
        do lat <- lift (Py.index coordinates 1);
        ret (Some (lat, lon))
      else ret None
    else ret None
  else ret None.

Definition geocode_address_gsi (address : cell) : M (option coords) :=
  try_except (geocode_address_gsi_try address)
    (fun e => do _ <- print (MsgGsiError address e); ret None).

(** [print(f"... {coords[0]:.6f}, {coords[1]:.6f}")]: both fields are
    formatted, left to right, before the line is written. *)
Definition print_success (mk : coords -> message) (c : coords) : M unit :=
  do _ <- lift (Py.format_6f (fst c));
  do _ <- lift (Py.format_6f (snd c));
  print (mk c).

(** [if coords:] holds for every tuple the clients return, as a pair
    is never empty; only [None] is falsy. *)
Definition geocode_with_fallback (address : cell) : M (option coords) :=
  do _ <- print (MsgGeocoding address);
  do coords <- geocode_address_gsi address;
  match coords with
  | Some c => do _ <- print_success MsgSuccessGsi c; ret (Some c)
  | None =>
      do _ <- sleep 1;
      do coords <- geocode_address_nominatim address;
      match coords with
      | Some c => do _ <- print_success MsgSuccessNominatim c; ret (Some c)
      | None => do _ <- print MsgFailure; ret None
      end
  end.

(** *** The batch processor *)

(** [row[key]] on a row of [csv.DictReader]. *)
Definition row_getitem (row : gmap string cell) (key : string) : outcome cell :=
  match row !! key with
  | Some c => Ok c
  | None => Raise (KeyError (PStr key))
  end.

Definition new_site (name address : cell) (c : coords) : site :=
  {| site_name := name; site_address := address;
     site_latitude := fst c; site_longitude := snd c |}.

(** The body of [for idx, row in enumerate(reader, 1)], threading the
    two accumulation lists. *)
Fixpoint process_rows (idx : nat) (rows : list (gmap string cell))
    (sites : list site) (failed_sites : list failed_site)
    : M (list site * list failed_site) :=
  match rows with
  | [] => ret (sites, failed_sites)
  | row :: rest =>
      do name <- lift (row_getitem row "施設名");
      do address <- lift (row_getitem row "所在地");
      do _ <- print (MsgProgress idx);
      do coords <- geocode_with_fallback address;
      let '(sites', failed_sites') :=
        match coords with
        | Some c => (sites ++ [new_site name address c], failed_sites)
        | None => (sites, failed_sites ++ [FailedSite name address])
        end in
      do _ <- sleep (1 # 2);
      process_rows (S idx) rest sites' failed_sites'
  end.

Definition feature_of_site (s : site) : feature :=
  {| prop_name := site_name s; prop_address := site_address s;
     coordinates := [site_longitude s; site_latitude s] |}.

(** [result] as it stands when it is dumped: created with an empty
    feature list, one feature appended per site, and the
    ["failed_sites"] key set only [if failed_sites:]. *)
Definition build_result (sites : list site) (failed_sites : list failed_site)
    (now : string) : result_doc :=
  {| doc_type := "FeatureCollection";
     features := foldl (fun fs s => fs ++ [feature_of_site s]) [] sites;
     meta := {| title := "杉並区震災救援所";
                total_sites := length sites;
                failed_geocoding := length failed_sites;
                generated_at := now |};
     failed_sites_key := match failed_sites with
                         | [] => None
                         | _ => Some failed_sites
                         end |}.

(** [open(path, 'r', encoding='utf-8')]: the file is opened or [open]
    raises.  Nothing is read yet: the header and the rows are read one
    at a time by the loop, so the file object carries what those reads
    will find. *)
Definition open_csv (path : string) : M csv_file :=
  fun tr =>
    (match csv_records W path with
     | Ok records => Ok (CsvFile records (csv_error W path))
     | Raise e => Raise e
     end,
     tr ++ [OpenRead path]).

(** The [next(reader)] that follows the last row: it ends the loop at
    the end of the file, and otherwise raises out of it. *)
Definition end_of_rows (f : csv_file) : M unit :=
  lift (match file_error f with
        | None => Ok ()
        | Some e => Raise e
        end).

(** [open(path, 'w')]; the dump into the opened file is taken to
    succeed: what is dumped holds only strings, [None] and the numbers
    that passed the [.6f] formatting. *)
Definition open_write (path : string) : M unit :=
  fun tr => (if writable W path then Ok () else Raise (OSError path),
             tr ++ [OpenWrite path]).

Definition time_strftime : M string := fun tr => (Ok (strftime W tr), tr).

Fixpoint print_failed (l : list failed_site) : M unit :=
  match l with
  | [] => ret ()
  | s :: rest =>
      do _ <- print (MsgFailedSite (failed_name s) (failed_address s));
      print_failed rest
  end.

(** The dict [csv.DictReader] builds from the header and one record:
    [dict(zip(fieldnames, row))], then [restval] ([None]) for the
    fields a short record lacks.  Later assignments to a repeated
    field name overwrite earlier ones.  The entry under [restkey] of
    an over-long record is left out: the script looks up string keys
    only. *)
Definition dict_row (fieldnames record : list string) : gmap string cell :=
  foldl (fun d kv => <[kv.1 := kv.2]> d) ∅
    (zip fieldnames
       ((Some <$> record)
        ++ replicate (length fieldnames - length record) None)).

(** The rows [csv.DictReader] yields for the records of [csv.reader]:
    the first record is the header, blank records are skipped.  The
    reader is an iterator: each row is built when the loop asks for
    it. *)
Definition DictReader (records : list (list string)) : list (gmap string cell) :=
  match records with
  | [] => []
  | fieldnames :: rest => dict_row fieldnames <$> filter (fun r => r ≠ []) rest
  end.

(** The [for] loop runs its body on the rows in the order they are
    read; a read that raises does so after the rows before it have been
    processed, and ends the run there. *)
Definition process_evacuation_sites (input_csv output_json : string) : M unit :=
  do f <- open_csv input_csv;
  do ' (sites, failed_sites) <-
    process_rows 1 (DictReader (file_records f)) [] [];
  do _ <- end_of_rows f;
  do now <- time_strftime;
  let result := build_result sites failed_sites now in
  do _ <- open_write output_json;
  do _ <- emit (JsonDump output_json result);
  do _ <- print MsgRule;
  do _ <- print MsgDone;
  do _ <- print (MsgSucceeded (length sites));
  do _ <- print (MsgFailedCount (length failed_sites));
  do _ <- print (MsgOutputFile output_json);
  match failed_sites with
  | [] => ret ()
  | _ => do _ <- print MsgFailedHeader; print_failed failed_sites
  end.

Definition main : M unit :=
  do _ <- print MsgStart;
  do _ <- print MsgRule;
  process_evacuation_sites "evacuation_sites.csv" "evacuation_sites_geocoded.json".

(** *** Results of the loop, row by row *)

(** What one iteration leaves behind: the two cells read from the row
  and what the resolver returned. *)
Record row_result : Type := RowResult {
rr_name : cell;
rr_address : cell;
rr_coords : option coords
}.

Definition sites_of (results : list row_result) : list site :=
omap (λ r, new_site (rr_name r) (rr_address r) <$> rr_coords r) results.

Definition failed_of (results : list row_result) : list failed_site :=
omap (λ r, match rr_coords r with
           | Some _ => None
           | None => Some (FailedSite (rr_name r) (rr_address r))
           end) results.

(** [resolved_rows idx tr rows results tr']: starting at trace [tr]
    with counter [idx], every row of [rows] has both columns and its
    resolver call returns; [results] lists the rows' results in row
    order and [tr'] is the trace after the last pause. *)
Inductive resolved_rows :
  nat → list event → list (gmap string cell) → list row_result →
  list event → Prop :=
| resolved_nil idx tr : resolved_rows idx tr [] [] tr
| resolved_cons idx tr row rest name address c tr1 results tr' :
    row !! "施設名" = Some name →
    row !! "所在地" = Some address →
    geocode_with_fallback address (tr ++ [Print (MsgProgress idx)])
    = (Ok c, tr1) →
    resolved_rows (S idx) (tr1 ++ [Sleep (1 # 2)]) rest results tr' →
    resolved_rows idx tr (row :: rest)
      (RowResult name address c :: results) tr'.

End Script.

(** The documents dumped during a run, and the one left on disk. *)
Definition dumped (tr : list event) : list result_doc :=
  omap (fun e => match e with JsonDump _ doc => Some doc | _ => None end) tr.

Definition written (tr : list event) : option result_doc := last (dumped tr).

(** The requests sent to provider [p] during a run. *)
Definition requests_to (p : provider) (tr : list event) : list request :=
  omap (fun e => match e with
                 | HttpGet GSI r => match p with GSI => Some r | _ => None end
                 | HttpGet Nominatim r => match p with Nominatim => Some r | _ => None end
                 | _ => None
                 end) tr.

(** A coordinate as the annotations of the script have it: a pair of
    Python floats. *)
Definition is_float (v : pyval) : bool :=
  match v with PFloat _ => true | _ => false end.

Definition is_coordinate (c : coords) : bool := is_float c.1 && is_float c.2.

(** [pure m]: [m] leaves the trace alone and its outcome does not
    depend on it. *)
Definition pure {A} (m : M A) : Prop := ∃ o, ∀ tr, m tr = (o, tr).

(** [emits P m]: whatever its outcome, [m] only appends events that
    satisfy [P]. *)
Definition emits {A} (P : event → Prop) (m : M A) : Prop :=
  ∀ tr o tr', m tr = (o, tr') → ∃ new, tr' = tr ++ new ∧ Forall P new.

Definition is_dump (e : event) : Prop :=
  match e with JsonDump _ _ => True | _ => False end.

(** The slept durations of a run, in order. *)
Definition sleeps (tr : list event) : list Q :=
  omap (fun e => match e with Sleep s => Some s | _ => None end) tr.

(** The two cells the loop reads from a row. *)
Definition row_record (row : gmap string cell) : option cell * option cell :=
  (row !! "施設名", row !! "所在地").

(** The feature built for a row the resolver answered with [(lat, lon)]. *)
Definition feature_of_result (r : row_result) : option feature :=
  (λ c, {| prop_name := rr_name r; prop_address := rr_address r;
           coordinates := [c.2; c.1] |}) <$> rr_coords r.

(** A first GSI result without usable coordinates: an object that has no
    ["geometry"] field, or whose geometry object has no ["coordinates"]
    field, or whose coordinates array has fewer than two elements. *)
Definition lacks_coordinates (first : pyval) : bool :=
  match first with
  | PDict d =>
      match Py.assoc "geometry" d with
      | None => true
      | Some (PDict g) =>
          match Py.assoc "coordinates" g with
          | None => true
          | Some (PList l) => (length l <? 2)%nat
          | Some _ => false
          end
      | Some _ => false
      end
  | _ => false
  end.

(** A value the [.6f] format accepts: a float, a bool, or an int that
    converts to a float. *)
Definition is_number (v : pyval) : bool :=
  match v with
  | PFloat _ | PBool _ => true
  | PInt z => match Py.float_of_int z with Some _ => true | None => false end
  | _ => false
  end.

(** No event, or one printed line. *)
Definition at_most_one_line (l : list event) : Prop :=
  l = [] ∨ ∃ m, l = [Print m].

(** The pauses of a loop, given for each row whether the resolver fell
    back to Nominatim: 1 second before the fallback, half a second
    after the row. *)
Definition pauses (fallbacks : list bool) : list Q :=
  fallbacks ≫= (λ fb : bool, if fb then [1%Q; 1 # 2] else [1 # 2]).

(** The Nominatim requests of a loop, given the same flags. *)
Fixpoint fallback_requests (results : list row_result) (fallbacks : list bool)
    : list request :=
  match results, fallbacks with
  | r :: results', fb :: fallbacks' =>
      (if fb then [nominatim_request (rr_address r)] else [])
      ++ fallback_requests results' fallbacks'
  | _, _ => []
  end.

(** The lines printed after the dump. *)
Definition summary_lines (output_json : string) (sites : list site)
    (failed_sites : list failed_site) : list message :=
  [MsgRule; MsgDone; MsgSucceeded (length sites);
   MsgFailedCount (length failed_sites); MsgOutputFile output_json]
  ++ match failed_sites with
     | [] => []
     | _ => MsgFailedHeader
            :: ((λ s, MsgFailedSite (failed_name s) (failed_address s))
                <$> failed_sites)
     end.

(** The bytes [quote_plus] may produce. *)
Definition is_query_byte (a : ascii) : bool :=
  Py.is_unreserved a
  || (nat_of_ascii a =? 43)%nat || (nat_of_ascii a =? 37)%nat.

Fixpoint string_forall (P : ascii → bool) (s : string) : bool :=
  match s with
  | EmptyString => true
  | String a s' => P a && string_forall P s'
  end.

(** ** Sample runs *)

Module Sample.

Definition lat : spec_float := S754_finite false 5024328334285210 (-47).
Definition lon : spec_float := S754_finite false 4911738343600947 (-45).

(** A stand-in for [float] on strings that knows the two numerals used
    below. *)
Definition float_of_str (s : string) : option spec_float :=
  if String.eqb s "35.7" then Some lat
  else if String.eqb s "139.6" then Some lon
  else None.

(** Providers that answer from a script, by the number of requests each
    has received so far; an exhausted script is a refused connection. *)
Definition scripted (gsi nominatim : list response)
    (p : provider) (tr : list event) (_ : request) : response :=
  default (Failed (OSError "connection refused"))
    (match p with GSI => gsi | Nominatim => nominatim end
       !! length (requests_to p tr)).

Definition gsi_hit : response :=
  Payload (PList [PDict [("geometry",
                          PDict [("coordinates", PList [PFloat lon; PFloat lat]);
                                 ("type", PStr "Point")]);
                         ("type", PStr "Feature")]]).

(** Coordinates sent as JSON strings instead of numbers. *)
Definition gsi_strings : response :=
  Payload (PList [PDict [("geometry",
                          PDict [("coordinates",
                                  PList [PStr "139.6"; PStr "35.7"])])]]).

Definition gsi_no_geometry : response :=
  Payload (PList [PDict [("type", PStr "Feature")]]).

Definition no_match : response := Payload (PList []).

Definition nominatim_hit : response :=
  Payload (PList [PDict [("lat", PStr "35.7"); ("lon", PStr "139.6")]]).

Definition table : list (list string) :=
  [["施設名"; "所在地"];
   ["杉並第一小学校"; "東京都杉並区阿佐谷北1-5-27"];
   ["テスト施設"; "不明な場所"];
   ["高円寺学園"; "東京都杉並区高円寺北1-4-11"]].

(** A world whose table is read to its end. *)
Definition world_of (gsi nominatim : list response)
    (records : outcome (list (list string))) : world :=
  {| http := scripted gsi nominatim;
     csv_records := λ _, records;
     csv_error := λ _, None;
     writable := λ _, true;
     strftime := λ _, "2025-08-01 12:00:00" |}.

(** Row 1 is resolved by GSI, row 2 by nobody, row 3 by Nominatim. *)
Definition mixed : world :=
  world_of [gsi_hit; no_match; no_match] [no_match; nominatim_hit] (Ok table).

(** GSI answers the first row with string coordinates. *)
Definition malformed : world := world_of [gsi_strings] [] (Ok table).

Definition unreadable : world :=
  world_of [] [] (Raise (OSError "No such file or directory")).

(** A header that names the address column differently. *)
Definition no_address_column : world :=
  world_of [gsi_hit] []
    (Ok [["施設名"; "住所"]; ["杉並第一小学校"; "東京都杉並区阿佐谷北1-5-27"]]).

(** GSI finds nothing, Nominatim answers. *)
Definition fallback : world := world_of [no_match] [nominatim_hit] (Ok table).

(** GSI answers with a result that has no geometry. *)
Definition incomplete : world := world_of [gsi_no_geometry] [] (Ok table).

Definition address : cell := Some "東京都杉並区阿佐谷北1-5-27".

(** The output file cannot be opened. *)
Definition unwritable : world :=
  {| http := scripted [gsi_hit; no_match; no_match] [no_match; nominatim_hit];
     csv_records := λ _, Ok table;
     csv_error := λ _, None;
     writable := λ _, false;
     strftime := λ _, "2025-08-01 12:00:00" |}.

(** A table with a header and blank lines only; the header does not even
    name the two columns. *)
Definition header_only : world :=
  world_of [gsi_hit] [nominatim_hit] (Ok [["名称"; "住所"]; []; []]).

(** A data row that stops after the facility name. *)
Definition short_row : world :=
  world_of [no_match] [no_match]
    (Ok [["施設名"; "所在地"]; ["杉並第一小学校"]]).

Definition first_rows : list (list string) :=
  [["施設名"; "所在地"]; ["杉並第一小学校"; "東京都杉並区阿佐谷北1-5-27"]].

(** The file stops being valid UTF-8 after the first data row. *)
Definition undecodable : world :=
  {| http := scripted [gsi_hit] [];
     csv_records := λ _, Ok first_rows;
     csv_error := λ _, Some ValueError;
     writable := λ _, true;
     strftime := λ _, "2025-08-01 12:00:00" |}.

(** GSI answers with integer coordinates. *)
Definition gsi_integers : response :=
  Payload (PList [PDict [("geometry",
                          PDict [("coordinates", PList [PInt 140; PInt 36])])]]).

Definition integers : world := world_of [gsi_integers] [] (Ok table).

Definition run (W : world) : outcome unit * list event :=
  process_evacuation_sites float_of_str W
    "evacuation_sites.csv" "evacuation_sites_geocoded.json" [].

End Sample.

(** * Properties *)

(** ** Computations without effects *)

Lemma pure_ret {A} (a : A) : pure (ret a).
Proof. by exists (Ok a). Qed.

Lemma pure_lift {A} (o : outcome A) : pure (lift o).
Proof. by exists o. Qed.

Lemma pure_bind {A B} (m : M A) (k : A → M B) :
  pure m → (∀ a, pure (k a)) → pure (bind m k).
Proof.
  intros [o Hm] Hk. destruct o as [a|e].
  - destruct (Hk a) as [o' Hka]. exists o'. intros tr.
    unfold bind. by rewrite Hm, Hka.
  - exists (Raise e). intros tr. unfold bind. by rewrite Hm.
Qed.

Lemma pure_if {A} (b : bool) (m1 m2 : M A) :
  pure m1 → pure m2 → pure (if b then m1 else m2).
Proof. by destruct b. Qed.

Ltac solve_pure :=
  repeat first
    [ apply pure_ret | apply pure_lift | apply pure_if
    | apply pure_bind; [|intros ?] ].

Section Clients.

Variable float_of_str : string -> option spec_float.
Variable W : world.

Lemma urlopen_json_trace p req tr :
  ∃ o, urlopen_json W p req tr = (o, tr ++ [HttpGet p req]).
Proof. unfold urlopen_json. destruct (http W p tr req); eauto. Qed.

(** The [try] body of either client sends one request and nothing
    else. *)
Lemma geocode_address_gsi_try_trace address tr :
  ∃ o, geocode_address_gsi_try W address tr
       = (o, tr ++ [HttpGet GSI (gsi_request address)]).
Proof.
  unfold geocode_address_gsi_try, bind at 1.
  destruct (urlopen_json_trace GSI (gsi_request address) tr) as [o ->].
  destruct o as [data|e]; [|eauto].
  match goal with |- ∃ o, ?m _ = _ => assert (pure m) as [o Ho] end.
  { solve_pure. }
  exists o. apply Ho.
Qed.

Lemma geocode_address_nominatim_try_trace address tr :
  ∃ o, geocode_address_nominatim_try float_of_str W address tr
       = (o, tr ++ [HttpGet Nominatim (nominatim_request address)]).
Proof.
  unfold geocode_address_nominatim_try, bind at 1.
  destruct (urlopen_json_trace Nominatim (nominatim_request address) tr)
    as [o ->].
  destruct o as [data|e]; [|eauto].
  match goal with |- ∃ o, ?m _ = _ => assert (pure m) as [o Ho] end.
  { solve_pure. }
  exists o. apply Ho.
Qed.

(** Neither client raises: it returns a pair or [None], after one
    request and at most one diagnostic line, and a diagnostic line
    comes with [None]. *)
Lemma geocode_address_gsi_shape address tr :
  ∃ g dg,
    geocode_address_gsi W address tr
    = (Ok g, tr ++ HttpGet GSI (gsi_request address) :: dg)
    ∧ (dg = [] ∨ ∃ e, g = None ∧ dg = [Print (MsgGsiError address e)]).
Proof.
  unfold geocode_address_gsi, try_except.
  destruct (geocode_address_gsi_try_trace address tr) as [[g|e] ->].
  - exists g, []. eauto.
  - exists None, [Print (MsgGsiError address e)]. split; [|eauto].
    unfold bind, print, emit, ret. by rewrite <- app_assoc.
Qed.

Lemma geocode_address_nominatim_shape address tr :
  ∃ n dn,
    geocode_address_nominatim float_of_str W address tr
    = (Ok n, tr ++ HttpGet Nominatim (nominatim_request address) :: dn)
    ∧ (dn = [] ∨ ∃ e, n = None ∧ dn = [Print (MsgNominatimError address e)]).
Proof.
  unfold geocode_address_nominatim, try_except.
  destruct (geocode_address_nominatim_try_trace address tr) as [[n|e] ->].
  - exists n, []. eauto.
  - exists None, [Print (MsgNominatimError address e)]. split; [|eauto].
    unfold bind, print, emit, ret. by rewrite <- app_assoc.
Qed.

Lemma float_is_float v x : Py.float float_of_str v = Ok x → is_float x = true.
Proof.
  destruct v; simpl; try discriminate; repeat case_match;
    intros; simplify_eq; done.
Qed.

(** What the Nominatim client returns is a pair of floats. *)
Lemma geocode_address_nominatim_coordinate address tr c tr' :
  geocode_address_nominatim float_of_str W address tr = (Ok (Some c), tr') →
  is_coordinate c = true.
Proof.
  unfold geocode_address_nominatim, try_except,
    geocode_address_nominatim_try, bind at 1.
  destruct (urlopen_json_trace Nominatim (nominatim_request address) tr)
    as [o ->].
  destruct o as [data|e]; [|by cbv].
  unfold bind, lift, ret, print, emit.
  destruct (Py.truthy data); [|done].
  destruct (Py.len data) as [n|]; [|done].
  destruct (0 <? n)%nat; [|done].
  destruct (Py.index data 0) as [first|]; [|done].
  destruct (Py.getitem first "lat") as [lat_field|]; [|done].
  destruct (Py.float float_of_str lat_field) as [lat|] eqn:Hlat; [|done].
  destruct (Py.getitem first "lon") as [lon_field|]; [|done].
  destruct (Py.float float_of_str lon_field) as [lon|] eqn:Hlon; [|done].
  intros [= <- _]. unfold is_coordinate. simpl.
  by rewrite (float_is_float _ _ Hlat), (float_is_float _ _ Hlon).
Qed.

End Clients.

(** ** Events a computation may emit *)

Lemma emits_ret {A} P (a : A) : emits P (ret a).
Proof. intros tr o tr' [= <- <-]. exists []. by rewrite app_nil_r. Qed.

Lemma emits_lift {A} P (o : outcome A) : emits P (lift o).
Proof. intros tr o' tr' [= <- <-]. exists []. by rewrite app_nil_r. Qed.

Lemma emits_emit (P : event → Prop) e : P e → emits P (emit e).
Proof. intros He tr o tr' [= <- <-]. exists [e]. eauto. Qed.

Lemma emits_bind {A B} P (m : M A) (k : A → M B) :
  emits P m → (∀ a, emits P (k a)) → emits P (bind m k).
Proof.
  intros Hm Hk tr o tr'. unfold bind.
  destruct (m tr) as [[a|e] tr1] eqn:E; destruct (Hm _ _ _ E) as (n1 & -> & H1).
  - intros E2. destruct (Hk _ _ _ _ E2) as (n2 & -> & H2).
    exists (n1 ++ n2). rewrite app_assoc. split; [done|]. by apply Forall_app.
  - intros [= <- <-]. eauto.
Qed.

Lemma emits_try_except {A} P (body : M A) (handler : exn → M A) :
  emits P body → (∀ e, emits P (handler e)) → emits P (try_except body handler).
Proof.
  intros Hm Hk tr o tr'. unfold try_except.
  destruct (body tr) as [[a|e] tr1] eqn:E; destruct (Hm _ _ _ E) as (n1 & -> & H1).
  - intros [= <- <-]. eauto.
  - intros E2. destruct (Hk _ _ _ _ E2) as (n2 & -> & H2).
    exists (n1 ++ n2). rewrite app_assoc. split; [done|]. by apply Forall_app.
Qed.

Lemma emits_pure {A} P (m : M A) : pure m → emits P m.
Proof.
  intros [o Ho] tr o' tr'. rewrite Ho. intros [= <- <-].
  exists []. by rewrite app_nil_r.
Qed.

Lemma dumped_app tr1 tr2 : dumped (tr1 ++ tr2) = dumped tr1 ++ dumped tr2.
Proof. apply omap_app. Qed.

Lemma dumped_no_dump new : Forall (λ e, ¬ is_dump e) new → dumped new = [].
Proof.
  induction 1 as [|e new He _ IH]; [done|].
  destruct e; try exact IH. by destruct He.
Qed.

Lemma format_6f_float v : is_float v = true → Py.format_6f v = Ok ().
Proof. by destruct v. Qed.

Lemma print_success_coordinate mk c tr :
  is_coordinate c = true →
  print_success mk c tr = (Ok (), tr ++ [Print (mk c)]).
Proof.
  unfold is_coordinate. intros [H1 H2]%andb_prop.
  unfold print_success, bind, lift.
  by rewrite (format_6f_float _ H1), (format_6f_float _ H2).
Qed.

Lemma format_6f_is_number v : Py.format_6f v = Ok () ↔ is_number v = true.
Proof.
  destruct v as [| | z | | | |]; simpl; try done.
  destruct (Py.float_of_int z); done.
Qed.

Lemma format_6f_raises v e :
  Py.format_6f v = Raise e →
  e = ValueError ∨ e = TypeError ∨ e = OverflowError.
Proof.
  destruct v as [| | z | | | |]; simpl; try destruct (Py.float_of_int z);
    intros [= <-]; auto.
Qed.

Lemma is_float_is_number v : is_float v = true → is_number v = true.
Proof. by destruct v. Qed.

(** The progress line of a success is printed when both values are
    numbers; otherwise formatting raises and nothing is printed. *)
Lemma print_success_number mk c tr :
  is_number c.1 = true → is_number c.2 = true →
  print_success mk c tr = (Ok (), tr ++ [Print (mk c)]).
Proof.
  intros H1%format_6f_is_number H2%format_6f_is_number.
  unfold print_success, bind, lift. by rewrite H1, H2.
Qed.

Lemma print_success_raises mk c tr :
  is_number c.1 = false ∨ is_number c.2 = false →
  ∃ e, print_success mk c tr = (Raise e, tr)
       ∧ (e = ValueError ∨ e = TypeError ∨ e = OverflowError).
Proof.
  intros Hnum. unfold print_success, bind, lift.
  destruct (Py.format_6f c.1) as [[]|e] eqn:H1.
  - destruct (Py.format_6f c.2) as [[]|e] eqn:H2.
    + apply format_6f_is_number in H1, H2. destruct Hnum; congruence.
    + exists e. split; [done|by eapply format_6f_raises].
  - exists e. split; [done|by eapply format_6f_raises].
Qed.

Lemma emits_urlopen_json W (P : event → Prop) p req :
  P (HttpGet p req) → emits P (urlopen_json W p req).
Proof.
  intros HP tr o tr' E.
  destruct (urlopen_json_trace W p req tr) as [o' E'].
  rewrite E' in E. injection E as <- <-. exists [HttpGet p req]. eauto.
Qed.

Lemma emits_print_success P mk c :
  (∀ m, P (Print m)) → emits P (print_success mk c).
Proof.
  intros HP. unfold print_success.
  repeat (apply emits_bind; [apply emits_lift|intros _]).
  by apply emits_emit.
Qed.

Ltac solve_emits :=
  repeat first
    [ apply emits_ret | apply emits_lift
    | apply emits_emit; solve [auto]
    | apply emits_urlopen_json; solve [auto]
    | apply emits_print_success; solve [auto]
    | apply emits_pure; solve [solve_pure]
    | apply emits_try_except; [|intros ?]
    | apply emits_bind; [|intros ?]
    | match goal with
      | |- emits _ (match ?x with _ => _ end) => destruct x
      end ].

Section Resolver.

Variable float_of_str : string -> option spec_float.
Variable W : world.

(** The resolver prints, sleeps and sends requests; it never touches
    a file. *)
Lemma emits_geocode_with_fallback (P : event → Prop) address :
  (∀ m, P (Print m)) → (∀ s, P (Sleep s)) → (∀ p r, P (HttpGet p r)) →
  emits P (geocode_with_fallback float_of_str W address).
Proof.
  intros HPr HSl HGet.
  unfold geocode_with_fallback, geocode_address_gsi, geocode_address_gsi_try,
    geocode_address_nominatim, geocode_address_nominatim_try.
  solve_emits.
Qed.

Lemma emits_process_rows (P : event → Prop) rows :
  (∀ m, P (Print m)) → (∀ s, P (Sleep s)) → (∀ p r, P (HttpGet p r)) →
  ∀ idx sites failed_sites,
    emits P (process_rows float_of_str W idx rows sites failed_sites).
Proof.
  intros HPr HSl HGet.
  induction rows as [|row rest IH]; intros idx sites failed_sites; simpl.
  { apply emits_ret. }
  apply emits_bind; [apply emits_lift|intros name].
  apply emits_bind; [apply emits_lift|intros address].
  apply emits_bind; [by apply emits_emit|intros _].
  apply emits_bind; [by apply emits_geocode_with_fallback|intros c].
  destruct c; (apply emits_bind; [by apply emits_emit|intros _]); apply IH.
Qed.

End Resolver.

(** ** The loop over the rows *)

Section Loop.

Variable float_of_str : string -> option spec_float.
Variable W : world.

Lemma resolved_rows_length idx tr rows results tr' :
  resolved_rows float_of_str W idx tr rows results tr' → length results = length rows.
Proof. induction 1; simpl; congruence. Qed.

Lemma sites_of_cons r results :
  sites_of (r :: results)
  = match rr_coords r with
    | Some c => new_site (rr_name r) (rr_address r) c :: sites_of results
    | None => sites_of results
    end.
Proof. unfold sites_of. simpl. by destruct (rr_coords r). Qed.

Lemma failed_of_cons r results :
  failed_of (r :: results)
  = match rr_coords r with
    | Some _ => failed_of results
    | None => FailedSite (rr_name r) (rr_address r) :: failed_of results
    end.
Proof. unfold failed_of. simpl. by destruct (rr_coords r). Qed.

(** A loop that returns has resolved every row, and appended the
    sites and the failed sites in row order. *)
Lemma process_rows_ok rows : ∀ idx sites failed_sites tr sites' failed_sites' tr',
  process_rows float_of_str W idx rows sites failed_sites tr
  = (Ok (sites', failed_sites'), tr') →
  ∃ results,
    resolved_rows float_of_str W idx tr rows results tr'
    ∧ sites' = sites ++ sites_of results
    ∧ failed_sites' = failed_sites ++ failed_of results.
Proof.
  induction rows as [|row rest IH];
    intros idx sites failed_sites tr sites' failed_sites' tr'; simpl.
  { intros [= <- <- <-]. exists []. rewrite !app_nil_r. eauto using resolved_nil. }
  unfold bind at 1, lift, row_getitem.
  destruct (row !! "施設名") as [name|] eqn:Hname; [|done].
  unfold bind at 1.
  destruct (row !! "所在地") as [address|] eqn:Haddress; [|done].
  unfold bind at 1, print, emit. unfold bind at 1.
  destruct (geocode_with_fallback _ _ _ _) as [[c|e] tr1] eqn:Hres; [|done].
  destruct c as [c|]; unfold bind at 1, sleep, emit; intros Hrest;
    apply IH in Hrest as (results & Hrows & -> & ->).
  - exists (RowResult name address (Some c) :: results).
    rewrite sites_of_cons, failed_of_cons. simpl.
    rewrite <- app_assoc. eauto using resolved_cons.
  - exists (RowResult name address None :: results).
    rewrite sites_of_cons, failed_of_cons. simpl.
    rewrite <- app_assoc. eauto using resolved_cons.
Qed.

(** Conversely, rows that resolve make the loop return. *)
Lemma process_rows_complete idx tr rows results tr' :
  resolved_rows float_of_str W idx tr rows results tr' →
  ∀ sites failed_sites,
    process_rows float_of_str W idx rows sites failed_sites tr
    = (Ok (sites ++ sites_of results, failed_sites ++ failed_of results), tr').
Proof.
  induction 1 as [idx tr|idx tr row rest name address c tr1 results tr'
                           Hname Haddress Hres _ IH];
    intros sites failed_sites.
  { simpl. by rewrite !app_nil_r. }
  rewrite sites_of_cons, failed_of_cons.
  cbn [process_rows rr_coords rr_name rr_address].
  unfold bind at 1, lift, row_getitem. rewrite Hname.
  unfold bind at 1. rewrite Haddress.
  unfold bind at 1, print, emit. unfold bind at 1. rewrite Hres.
  destruct c as [c|]; unfold bind at 1, sleep, emit; rewrite IH;
    by rewrite <- app_assoc.
Qed.

(** Every row contributes to exactly one of the two lists. *)
Lemma sites_failed_length results :
  length (sites_of results) + length (failed_of results) = length results.
Proof.
  induction results as [|r results IH]; [done|].
  rewrite sites_of_cons, failed_of_cons.
  destruct (rr_coords r); simpl; lia.
Qed.

Lemma features_map sites :
  foldl (λ fs s, fs ++ [feature_of_site s]) [] sites = feature_of_site <$> sites.
Proof.
  enough (∀ acc, foldl (λ fs s, fs ++ [feature_of_site s]) acc sites
                 = acc ++ (feature_of_site <$> sites)) as H by apply H.
  induction sites as [|s sites IH]; intros acc; simpl.
  - by rewrite app_nil_r.
  - by rewrite IH, <- app_assoc.
Qed.

End Loop.

(** ** A whole run *)

Section Run.

Variable float_of_str : string -> option spec_float.
Variable W : world.

Lemma print_failed_trace l tr :
  print_failed l tr
  = (Ok (), tr ++ ((λ s, Print (MsgFailedSite (failed_name s) (failed_address s))) <$> l)).
Proof.
  revert tr. induction l as [|s l IH]; intros tr; simpl.
  - by rewrite app_nil_r.
  - unfold bind, print, emit. rewrite IH. by rewrite <- app_assoc.
Qed.

Lemma dumped_prints (l : list message) : dumped (Print <$> l) = [].
Proof. by induction l. Qed.

(** A run either aborts before anything is dumped, or reads the table
    to its end, resolves every row and dumps [build_result] of the two
    lists, once. *)
Lemma process_evacuation_sites_inv input_csv output_json tr o tr' :
  process_evacuation_sites float_of_str W input_csv output_json tr = (o, tr') →
  (∃ e, o = Raise e ∧ dumped tr' = dumped tr)
  ∨ (∃ records results tr1 summary,
        o = Ok ()
        ∧ csv_records W input_csv = Ok records
        ∧ resolved_rows float_of_str W 1 (tr ++ [OpenRead input_csv])
            (DictReader records) results tr1
        ∧ writable W output_json = true
        ∧ tr' = tr1 ++ OpenWrite output_json
                  :: JsonDump output_json
                       (build_result (sites_of results) (failed_of results)
                          (strftime W tr1))
                  :: (Print <$> summary)
        ∧ dumped tr1 = dumped tr
        ∧ csv_error W input_csv = None).
Proof.
  unfold process_evacuation_sites, bind at 1, open_csv.
  destruct (csv_records W input_csv) as [records|e] eqn:Hcsv.
  2:{ intros [= <- <-]. left. exists e. split; [done|].
      rewrite dumped_app. apply app_nil_r. }
  unfold bind at 1. cbn [file_records].
  destruct (process_rows _ _ _ _ _ _ _) as [[[sites failed_sites]|e] tr1] eqn:Hrows.
  2:{ intros [= <- <-]. left. exists e.
      apply (emits_process_rows float_of_str W (λ e, ¬ is_dump e)) in Hrows
        as (new & -> & Hnew); [|by intros ? []|by intros ? []|by intros ? ? []].
      split; [done|]. rewrite !dumped_app, (dumped_no_dump new) by done.
      simpl. by rewrite !app_nil_r. }
  assert (dumped tr1 = dumped tr) as Hquiet.
  { apply (emits_process_rows float_of_str W (λ e, ¬ is_dump e)) in Hrows
      as (new & -> & Hnew); [|by intros ? []|by intros ? []|by intros ? ? []].
    rewrite !dumped_app, (dumped_no_dump new) by done.
    simpl. by rewrite !app_nil_r. }
  apply process_rows_ok in Hrows as (results & Hrows & -> & ->). simpl.
  unfold bind at 1, end_of_rows, lift. cbn [file_error].
  destruct (csv_error W input_csv) as [e|] eqn:Herr.
  { intros [= <- <-]. left. by exists e. }
  unfold bind at 1, time_strftime. unfold bind at 1, open_write.
  destruct (writable W output_json) eqn:Hw.
  2:{ intros [= <- <-]. left. eexists. split; [done|].
      rewrite dumped_app. simpl. by rewrite app_nil_r. }
  intros Hrun. right. exists records, results, tr1.
  unfold bind, print, emit in Hrun.
  destruct (failed_of results) as [|s l] eqn:Hfailed.
  - exists [MsgRule; MsgDone; MsgSucceeded (length (sites_of results));
            MsgFailedCount 0; MsgOutputFile output_json].
    unfold ret in Hrun. injection Hrun as <- <-.
    repeat split; try done. by rewrite <- !app_assoc.
  - rewrite print_failed_trace in Hrun. injection Hrun as <- <-.
    exists ([MsgRule; MsgDone; MsgSucceeded (length (sites_of results));
             MsgFailedCount (length (s :: l)); MsgOutputFile output_json;
             MsgFailedHeader]
            ++ ((λ s, MsgFailedSite (failed_name s) (failed_address s)) <$> (s :: l))).
    repeat split; try done.
    rewrite <- !app_assoc. simpl. rewrite <- !list_fmap_compose. done.
Qed.

(** The document a run leaves on disk. *)
Lemma written_inv input_csv output_json o tr' doc :
  process_evacuation_sites float_of_str W input_csv output_json [] = (o, tr') →
  written tr' = Some doc →
  ∃ records results tr1,
    o = Ok ()
    ∧ csv_records W input_csv = Ok records
    ∧ resolved_rows float_of_str W 1 [OpenRead input_csv]
        (DictReader records) results tr1
    ∧ writable W output_json = true
    ∧ doc = build_result (sites_of results) (failed_of results) (strftime W tr1).
Proof.
  intros Hrun Hdoc.
  apply process_evacuation_sites_inv in Hrun
    as [(e & -> & Hd)|(records & results & tr1 & summary & -> & Hcsv & Hrows
                        & Hw & -> & Hd & _)].
  { unfold written in Hdoc. by rewrite Hd in Hdoc. }
  exists records, results, tr1. repeat split; try done.
  unfold written in Hdoc.
  rewrite dumped_app, Hd in Hdoc. simpl in Hdoc.
  change (dumped (?a :: ?b :: ?l)) with (dumped [a] ++ dumped [b] ++ dumped l) in Hdoc.
  rewrite dumped_prints in Hdoc. simpl in Hdoc. by injection Hdoc as <-.
Qed.

(** A document is written only when the table was read to its end. *)
Lemma written_read_to_end input_csv output_json o tr' doc :
  process_evacuation_sites float_of_str W input_csv output_json [] = (o, tr') →
  written tr' = Some doc →
  csv_error W input_csv = None.
Proof.
  intros Hrun Hdoc.
  apply process_evacuation_sites_inv in Hrun
    as [(e & -> & Hd)|(_ & _ & _ & _ & _ & _ & _ & _ & _ & _ & Herr)];
    [|done].
  unfold written in Hdoc. by rewrite Hd in Hdoc.
Qed.

(** A run whose rows all resolve: a read that raises ends it after the
    last row; otherwise it ends at the opening of the output file, with
    an error if that fails and with the dump and the summary if not. *)
Lemma process_evacuation_sites_rows input_csv output_json tr
    records results tr1 :
  csv_records W input_csv = Ok records →
  resolved_rows float_of_str W 1 (tr ++ [OpenRead input_csv])
    (DictReader records) results tr1 →
  process_evacuation_sites float_of_str W input_csv output_json tr
  = match csv_error W input_csv with
    | Some e => (Raise e, tr1)
    | None =>
        if writable W output_json
        then (Ok (),
              tr1 ++ OpenWrite output_json
                  :: JsonDump output_json
                       (build_result (sites_of results) (failed_of results)
                          (strftime W tr1))
                  :: (Print <$> summary_lines output_json (sites_of results)
                                  (failed_of results)))
        else (Raise (OSError output_json), tr1 ++ [OpenWrite output_json])
    end.
Proof.
  intros Hcsv Hrows.
  unfold process_evacuation_sites, bind at 1, open_csv. rewrite Hcsv.
  unfold bind at 1. cbn [file_records].
  rewrite (process_rows_complete _ _ _ _ _ _ _ Hrows [] []). simpl.
  unfold bind at 1, end_of_rows, lift. cbn [file_error].
  destruct (csv_error W input_csv) as [e|]; [done|].
  unfold bind at 1, time_strftime. unfold bind at 1, open_write.
  destruct (writable W output_json); [|done].
  unfold bind, print, emit, summary_lines.
  destruct (failed_of results) as [|s l] eqn:Hfailed.
  - unfold ret. by rewrite <- !app_assoc.
  - rewrite print_failed_trace. f_equal.
    repeat (rewrite <- app_assoc; simpl). do 8 f_equal.
    by rewrite <- list_fmap_compose.
Qed.

Lemma process_evacuation_sites_complete input_csv output_json tr
    records results tr1 :
  csv_records W input_csv = Ok records →
  csv_error W input_csv = None →
  resolved_rows float_of_str W 1 (tr ++ [OpenRead input_csv])
    (DictReader records) results tr1 →
  process_evacuation_sites float_of_str W input_csv output_json tr
  = if writable W output_json
    then (Ok (),
          tr1 ++ OpenWrite output_json
              :: JsonDump output_json
                   (build_result (sites_of results) (failed_of results)
                      (strftime W tr1))
              :: (Print <$> summary_lines output_json (sites_of results)
                              (failed_of results)))
    else (Raise (OSError output_json), tr1 ++ [OpenWrite output_json]).
Proof.
  intros Hcsv Herr Hrows.
  rewrite (process_evacuation_sites_rows _ _ _ _ _ _ Hcsv Hrows).
  by rewrite Herr.
Qed.

End Run.

(** ** The fallback resolver *)

Lemma requests_to_app p tr1 tr2 :
  requests_to p (tr1 ++ tr2) = requests_to p tr1 ++ requests_to p tr2.
Proof. apply omap_app. Qed.

Lemma sleeps_app tr1 tr2 : sleeps (tr1 ++ tr2) = sleeps tr1 ++ sleeps tr2.
Proof. apply omap_app. Qed.

Lemma requests_to_cons p e tr :
  requests_to p (e :: tr) = requests_to p [e] ++ requests_to p tr.
Proof. apply (requests_to_app p [e] tr). Qed.

Lemma sleeps_cons e tr : sleeps (e :: tr) = sleeps [e] ++ sleeps tr.
Proof. apply (sleeps_app [e] tr). Qed.

Section Fallback.

Variable float_of_str : string -> option spec_float.
Variable W : world.

(** Whatever happens later, the resolver starts with its progress line
    and a request to GSI. *)
Lemma geocode_with_fallback_first_request address tr o tr' :
  geocode_with_fallback float_of_str W address tr = (o, tr') →
  ∃ rest, tr' = tr ++ Print (MsgGeocoding address)
                     :: HttpGet GSI (gsi_request address) :: rest.
Proof.
  unfold geocode_with_fallback, bind at 1, print at 1, emit. unfold bind at 1.
  destruct (geocode_address_gsi_shape W address (tr ++ [Print (MsgGeocoding address)]))
    as (g & dg & -> & _).
  rewrite <- app_assoc. simpl. intros Hrest.
  match type of Hrest with
  | ?k _ = _ => assert (emits (λ _, True) k) as Hk by solve_emits
  end.
  apply Hk in Hrest as (new & -> & _).
  exists (dg ++ new). by rewrite <- !app_assoc.
Qed.

Lemma quiet_diagnostic p (dg : list event) :
  (dg = [] ∨ ∃ m, dg = [Print m]) →
  requests_to p dg = [] ∧ sleeps dg = [].
Proof. intros [->|(m & ->)]; by destruct p. Qed.

(** C2.  The resolver asks GSI first.  When the GSI client returns a
    pair of numbers, the resolver returns it at once: no pause, no
    request to Nominatim.  When the GSI client returns [None], the
    resolver pauses for 1 second, asks Nominatim once, and returns what
    the Nominatim client returned, a coordinate or [None].  When the GSI
    client returns a pair that holds something else than a number, the
    resolver does neither: it raises while formatting its progress
    line, without a pause and without a request to Nominatim. *)
Theorem geocode_with_fallback_order address tr :
  (∃ g tr1,
      geocode_address_gsi W address (tr ++ [Print (MsgGeocoding address)])
      = (Ok g, tr1)
      ∧ requests_to GSI tr1 = requests_to GSI tr ++ [gsi_request address]
      ∧ requests_to Nominatim tr1 = requests_to Nominatim tr
      ∧ sleeps tr1 = sleeps tr)
  ∧ (∀ c tr1,
        geocode_address_gsi W address (tr ++ [Print (MsgGeocoding address)])
        = (Ok (Some c), tr1) →
        is_number c.1 = true →
        is_number c.2 = true →
        ∃ tr',
          geocode_with_fallback float_of_str W address tr = (Ok (Some c), tr')
          ∧ requests_to Nominatim tr' = requests_to Nominatim tr
          ∧ sleeps tr' = sleeps tr)
  ∧ (∀ tr1,
        geocode_address_gsi W address (tr ++ [Print (MsgGeocoding address)])
        = (Ok None, tr1) →
        ∃ n tr2 tr',
          geocode_address_nominatim float_of_str W address (tr1 ++ [Sleep 1])
          = (Ok n, tr2)
          ∧ geocode_with_fallback float_of_str W address tr = (Ok n, tr')
          ∧ requests_to Nominatim tr'
            = requests_to Nominatim tr ++ [nominatim_request address]
          ∧ sleeps tr' = sleeps tr ++ [1%Q])
  ∧ (∀ c tr1,
        geocode_address_gsi W address (tr ++ [Print (MsgGeocoding address)])
        = (Ok (Some c), tr1) →
        is_number c.1 = false ∨ is_number c.2 = false →
        ∃ e,
          geocode_with_fallback float_of_str W address tr = (Raise e, tr1)
          ∧ (e = ValueError ∨ e = TypeError ∨ e = OverflowError)
          ∧ requests_to Nominatim tr1 = requests_to Nominatim tr
          ∧ sleeps tr1 = sleeps tr).
Proof.
  destruct (geocode_address_gsi_shape W address
              (tr ++ [Print (MsgGeocoding address)])) as (g & dg & Hgsi & Hdg).
  assert (dg = [] ∨ ∃ m, dg = [Print m]) as Hdg'
    by (destruct Hdg as [->|(e & _ & ->)]; eauto).
  pose proof (quiet_diagnostic GSI dg Hdg') as [HdgG HdgS].
  pose proof (quiet_diagnostic Nominatim dg Hdg') as [HdgN _].
  assert (∀ p, requests_to p (tr ++ [Print (MsgGeocoding address)]
                                ++ HttpGet GSI (gsi_request address) :: dg)
               = requests_to p tr
                 ++ match p with GSI => [gsi_request address] | _ => [] end)
    as Hreq.
  { intros p. rewrite app_assoc, requests_to_app, (requests_to_cons _ _ dg).
    rewrite requests_to_app, <- app_assoc. f_equal.
    destruct p; [rewrite HdgG|rewrite HdgN]; done. }
  assert (sleeps (tr ++ [Print (MsgGeocoding address)]
                    ++ HttpGet GSI (gsi_request address) :: dg) = sleeps tr)
    as Hsl.
  { rewrite app_assoc, sleeps_app, (sleeps_cons _ dg), HdgS.
    rewrite sleeps_app. simpl. by rewrite !app_nil_r. }
  rewrite <- app_assoc in Hgsi.
  remember (tr ++ [Print (MsgGeocoding address)]
               ++ HttpGet GSI (gsi_request address) :: dg) as trg eqn:Htrg.
  clear Htrg.
  split; [|split; [|split]].
  - exists g, trg. repeat split; [done|apply (Hreq GSI)| |done].
    rewrite (Hreq Nominatim). by rewrite app_nil_r.
  - intros c tr1 Hc H1 H2. rewrite Hgsi in Hc. injection Hc as -> <-.
    exists (trg ++ [Print (MsgSuccessGsi c)]). repeat split.
    + unfold geocode_with_fallback, bind at 1, print at 1, emit.
      unfold bind at 1. rewrite Hgsi.
      unfold bind. by rewrite print_success_number.
    + rewrite requests_to_app, (Hreq Nominatim). simpl. by rewrite !app_nil_r.
    + rewrite sleeps_app, Hsl. simpl. by rewrite app_nil_r.
  - intros tr1 Hc. rewrite Hgsi in Hc. injection Hc as -> <-.
    destruct (geocode_address_nominatim_shape float_of_str W address
                (trg ++ [Sleep 1])) as (n & dn & Hnom & Hdn).
    assert (dn = [] ∨ ∃ m, dn = [Print m]) as Hdn'
      by (destruct Hdn as [->|(e & _ & ->)]; eauto).
    pose proof (quiet_diagnostic Nominatim dn Hdn') as [HdnN HdnS].
    destruct n as [c|]; eexists _, _, _; (split; [exact Hnom|]);
      unfold geocode_with_fallback, bind at 1, print at 1, emit;
      unfold bind at 1; rewrite Hgsi;
      unfold bind at 1, sleep, emit; unfold bind at 1; rewrite Hnom.
    + pose proof (geocode_address_nominatim_coordinate _ _ _ _ _ _ Hnom) as Hcoord.
      unfold bind. rewrite print_success_coordinate by done.
      split; [reflexivity|].
      rewrite !requests_to_app, !sleeps_app, (Hreq Nominatim), Hsl.
      rewrite (requests_to_cons _ _ dn), (sleeps_cons _ dn), HdnN, HdnS.
      simpl. by rewrite !app_nil_r.
    + unfold bind, print, emit, ret.
      split; [reflexivity|].
      rewrite !requests_to_app, !sleeps_app, (Hreq Nominatim), Hsl.
      rewrite (requests_to_cons _ _ dn), (sleeps_cons _ dn), HdnN, HdnS.
      simpl. by rewrite !app_nil_r.
  - intros c tr1 Hc Hnum. rewrite Hgsi in Hc. injection Hc as -> <-.
    destruct (print_success_raises MsgSuccessGsi c trg Hnum) as (e & Hfmt & He).
    exists e. split; [|split; [done|]].
    + unfold geocode_with_fallback, bind at 1, print at 1, emit.
      unfold bind at 1. rewrite Hgsi.
      unfold bind. by rewrite Hfmt.
    + rewrite (Hreq Nominatim), Hsl. by rewrite app_nil_r.
Qed.

End Fallback.

(** ** What the clients read from a payload *)

Section Payloads.

Variable float_of_str : string -> option spec_float.
Variable W : world.

Lemma geocode_address_gsi_try_payload address tr data :
  http W GSI tr (gsi_request address) = Payload data →
  geocode_address_gsi_try W address tr
  = (if Py.truthy data then
       do n <- lift (Py.len data);
       if (0 <? n)%nat then
         do first <- lift (Py.index data 0);
         do geometry <- lift (Py.get first "geometry" (PDict []));
         do coordinates <- lift (Py.get geometry "coordinates" (PList []));
         do m <- lift (Py.len coordinates);
         if (2 <=? m)%nat then
           do lon <- lift (Py.index coordinates 0);
           do lat <- lift (Py.index coordinates 1);
           ret (Some (lat, lon))
         else ret None
       else ret None
     else ret None) (tr ++ [HttpGet GSI (gsi_request address)]).
Proof.
  intros Hhttp. unfold geocode_address_gsi_try, bind at 1, urlopen_json.
  by rewrite Hhttp.
Qed.

(** The GSI client swaps the provider's [[lon, lat]] array. *)
Lemma geocode_address_gsi_swaps address tr d g lon lat more rest :
  http W GSI tr (gsi_request address) = Payload (PList (PDict d :: rest)) →
  Py.assoc "geometry" d = Some (PDict g) →
  Py.assoc "coordinates" g = Some (PList (lon :: lat :: more)) →
  geocode_address_gsi W address tr
  = (Ok (Some (lat, lon)), tr ++ [HttpGet GSI (gsi_request address)]).
Proof.
  intros Hhttp Hgeometry Hcoordinates.
  unfold geocode_address_gsi, try_except.
  rewrite (geocode_address_gsi_try_payload _ _ _ Hhttp).
  cbn. rewrite Hgeometry. cbn. rewrite Hcoordinates. reflexivity.
Qed.

(** The Nominatim client converts the ["lat"] and ["lon"] fields and
    returns them in that order. *)
Lemma geocode_address_nominatim_reads address tr d lat_field lon_field lat lon rest :
  http W Nominatim tr (nominatim_request address)
  = Payload (PList (PDict d :: rest)) →
  Py.assoc "lat" d = Some lat_field →
  Py.assoc "lon" d = Some lon_field →
  Py.float float_of_str lat_field = Ok lat →
  Py.float float_of_str lon_field = Ok lon →
  geocode_address_nominatim float_of_str W address tr
  = (Ok (Some (lat, lon)),
     tr ++ [HttpGet Nominatim (nominatim_request address)]).
Proof.
  intros Hhttp Hlatf Hlonf Hlat Hlon.
  unfold geocode_address_nominatim, try_except, geocode_address_nominatim_try,
    bind at 1, urlopen_json.
  rewrite Hhttp. cbn. rewrite Hlatf. cbn. rewrite Hlat. cbn.
  rewrite Hlonf. cbn. rewrite Hlon. reflexivity.
Qed.

(** C10.  When the first GSI result is an object without a ["geometry"]
    field, or its geometry object has no ["coordinates"] field, or its
    coordinates array has fewer than two elements, the body of the
    client's [try] falls through without raising, and the client
    returns [None] after its one request, with no diagnostic line.  That
    return value is the same as for an empty result array and for a
    request that raised. *)
Theorem geocode_address_gsi_incomplete address tr first rest :
  http W GSI tr (gsi_request address) = Payload (PList (first :: rest)) →
  lacks_coordinates first = true →
  geocode_address_gsi_try W address tr
  = (Ok None, tr ++ [HttpGet GSI (gsi_request address)])
  ∧ geocode_address_gsi W address tr
    = (Ok None, tr ++ [HttpGet GSI (gsi_request address)])
  ∧ (∀ W' tr', http W' GSI tr' (gsi_request address) = Payload (PList []) →
               (geocode_address_gsi W' address tr').1 = Ok None)
  ∧ (∀ W' tr' e, http W' GSI tr' (gsi_request address) = Failed e →
                 (geocode_address_gsi W' address tr').1 = Ok None).
Proof.
  intros Hhttp Hlacks.
  assert (geocode_address_gsi_try W address tr
          = (Ok None, tr ++ [HttpGet GSI (gsi_request address)])) as Htry.
  { rewrite (geocode_address_gsi_try_payload _ _ _ Hhttp). cbn.
    destruct first as [| | | | | |d]; try discriminate. cbn in *.
    destruct (Py.assoc "geometry" d) as [geometry|]; [|reflexivity].
    destruct geometry as [| | | | | |g]; try discriminate. cbn in *.
    destruct (Py.assoc "coordinates" g) as [coordinates|]; [|reflexivity].
    destruct coordinates as [| | | | |l|]; try discriminate.
    by destruct l as [|lon [|lat more]]. }
  split; [exact Htry|]. split.
  { unfold geocode_address_gsi, try_except. by rewrite Htry. }
  split.
  - intros W' tr' Hempty.
    unfold geocode_address_gsi, try_except, geocode_address_gsi_try,
      bind at 1, urlopen_json.
    by rewrite Hempty.
  - intros W' tr' e Hfailed.
    unfold geocode_address_gsi, try_except, geocode_address_gsi_try,
      bind at 1, urlopen_json.
    by rewrite Hfailed.
Qed.

End Payloads.

(** ** The result document *)

Lemma features_of_results results :
  feature_of_site <$> sites_of results = omap feature_of_result results.
Proof.
  induction results as [|r results IH]; [done|].
  rewrite sites_of_cons.
  change (omap feature_of_result (r :: results))
    with (match feature_of_result r with
          | Some f => f :: omap feature_of_result results
          | None => omap feature_of_result results
          end).
  unfold feature_of_result at 1.
  destruct (rr_coords r) as [c|]; [|exact IH].
  rewrite fmap_cons, IH. reflexivity.
Qed.

Lemma features_sublist results :
  (λ f, (prop_name f, prop_address f)) <$> omap feature_of_result results
  `sublist_of` (λ r, (rr_name r, rr_address r)) <$> results.
Proof.
  induction results as [|r results IH]; [done|].
  change (omap feature_of_result (r :: results))
    with (match feature_of_result r with
          | Some f => f :: omap feature_of_result results
          | None => omap feature_of_result results
          end).
  unfold feature_of_result at 1. rewrite fmap_cons.
  destruct (rr_coords r) as [c|].
  - apply (sublist_skip (rr_name r, rr_address r)), IH.
  - apply sublist_cons, IH.
Qed.

Lemma failed_of_nil results :
  failed_of results = [] ↔ Forall (λ r, is_Some (rr_coords r)) results.
Proof.
  induction results as [|r results IH]; [done|].
  rewrite failed_of_cons, Forall_cons.
  destruct (rr_coords r) as [c|]; simpl.
  - rewrite IH. split; [eauto|tauto].
  - split; [done|]. by intros [[? ?] _].
Qed.

Lemma records_of_results rows results :
  Forall2 (λ row r, row_record row = (Some (rr_name r), Some (rr_address r)))
    rows results →
  row_record <$> rows
  = (λ r, (Some (rr_name r), Some (rr_address r))) <$> results.
Proof.
  induction 1 as [|row r rows results Hr _ IH]; [done|].
  rewrite !fmap_cons. by rewrite Hr, IH.
Qed.

Section Document.

Variable float_of_str : string -> option spec_float.
Variable W : world.

Lemma resolved_rows_records idx tr rows results tr' :
  resolved_rows float_of_str W idx tr rows results tr' →
  Forall2 (λ row r, row_record row = (Some (rr_name r), Some (rr_address r)))
    rows results.
Proof.
  induction 1 as [|idx tr row rest name address c tr1 results tr'
                   Hname Haddress _ _ IH]; constructor; [|done].
  unfold row_record. simpl. by rewrite Hname, Haddress.
Qed.

Lemma build_result_features sites failed_sites now :
  features (build_result sites failed_sites now) = feature_of_site <$> sites.
Proof. apply features_map. Qed.

(** C3.  The GSI client reads [[lon, lat]] from its payload and returns
    [(lat, lon)]; the Nominatim client returns [(float(lat), float(lon))];
    and in the written document the features are, in order, those of
    the rows the resolver answered, each with coordinates [[lon, lat]]
    for the pair [(lat, lon)] the resolver returned. *)
Theorem feature_coordinates_lon_lat :
  (∀ address tr d g lon lat more rest,
      http W GSI tr (gsi_request address) = Payload (PList (PDict d :: rest)) →
      Py.assoc "geometry" d = Some (PDict g) →
      Py.assoc "coordinates" g = Some (PList (lon :: lat :: more)) →
      geocode_address_gsi W address tr
      = (Ok (Some (lat, lon)), tr ++ [HttpGet GSI (gsi_request address)]))
  ∧ (∀ address tr d lat_field lon_field lat lon rest,
        http W Nominatim tr (nominatim_request address)
        = Payload (PList (PDict d :: rest)) →
        Py.assoc "lat" d = Some lat_field →
        Py.assoc "lon" d = Some lon_field →
        Py.float float_of_str lat_field = Ok lat →
        Py.float float_of_str lon_field = Ok lon →
        geocode_address_nominatim float_of_str W address tr
        = (Ok (Some (lat, lon)),
           tr ++ [HttpGet Nominatim (nominatim_request address)]))
  ∧ (∀ name address lat lon,
        coordinates (feature_of_site (new_site name address (lat, lon)))
        = [lon; lat])
  ∧ (∀ input_csv output_json o tr' doc,
        process_evacuation_sites float_of_str W input_csv output_json []
        = (o, tr') →
        written tr' = Some doc →
        ∃ records results tr1,
          csv_records W input_csv = Ok records
          ∧ resolved_rows float_of_str W 1 [OpenRead input_csv]
              (DictReader records) results tr1
          ∧ features doc = omap feature_of_result results).
Proof.
  split; [apply geocode_address_gsi_swaps|].
  split; [apply geocode_address_nominatim_reads|].
  split; [done|].
  intros input_csv output_json o tr' doc Hrun Hdoc.
  destruct (written_inv _ _ _ _ _ _ _ Hrun Hdoc)
    as (records & results & tr1 & _ & Hcsv & Hrows & _ & ->).
  exists records, results, tr1. repeat split; [done..|].
  by rewrite build_result_features, features_of_results.
Qed.

(** C4.  The written document has a ["failed_sites"] key exactly when
    some row failed geocoding, which is exactly when
    [metadata.failed_geocoding] is not zero; the key never holds an empty
    list, and the list it holds has [metadata.failed_geocoding]
    elements. *)
Theorem failed_sites_key_iff_failure input_csv output_json o tr' doc :
  process_evacuation_sites float_of_str W input_csv output_json [] = (o, tr') →
  written tr' = Some doc →
  ∃ records results tr1,
    csv_records W input_csv = Ok records
    ∧ resolved_rows float_of_str W 1 [OpenRead input_csv]
        (DictReader records) results tr1
    ∧ (is_Some (failed_sites_key doc)
       ↔ ∃ r, r ∈ results ∧ rr_coords r = None)
    ∧ (failed_sites_key doc = None ↔ failed_geocoding (meta doc) = 0)
    ∧ (∀ l, failed_sites_key doc = Some l →
            l ≠ [] ∧ l = failed_of results
            ∧ length l = failed_geocoding (meta doc)).
Proof.
  intros Hrun Hdoc.
  destruct (written_inv _ _ _ _ _ _ _ Hrun Hdoc)
    as (records & results & tr1 & _ & Hcsv & Hrows & _ & ->).
  exists records, results, tr1. split; [done|]. split; [done|].
  pose proof (failed_of_nil results) as Hnil. simpl.
  destruct (failed_of results) as [|s l] eqn:Hfailed; simpl.
  - split; [|done]. split.
    + by intros [? ?].
    + intros (r & Hr & Hnone).
      pose proof (proj1 Hnil eq_refl) as Hall.
      rewrite Forall_forall in Hall. apply Hall in Hr.
      rewrite Hnone in Hr. by destruct Hr.
  - split; [|split; [done|by intros ? [= <-]]].
    split; [|by eauto]. intros _.
    destruct (decide (Forall (λ r, is_Some (rr_coords r)) results))
      as [Hall|Hnot].
    + by apply Hnil in Hall.
    + apply not_Forall_Exists in Hnot; [|apply _].
      apply Exists_exists in Hnot as (r & Hr & Hnone).
      exists r. split; [done|].
      simpl in Hnone.
      destruct (rr_coords r) as [c|]; [|done]. destruct Hnone. eauto.
Qed.

(** C8.  The features of the written document are those of the rows
    the resolver answered, in the order of the rows: the feature list
    is the row list with the failed rows left out. *)
Theorem features_in_row_order input_csv output_json o tr' doc :
  process_evacuation_sites float_of_str W input_csv output_json [] = (o, tr') →
  written tr' = Some doc →
  ∃ records results tr1,
    csv_records W input_csv = Ok records
    ∧ resolved_rows float_of_str W 1 [OpenRead input_csv]
        (DictReader records) results tr1
    ∧ Forall2 (λ row r, row_record row = (Some (rr_name r), Some (rr_address r)))
        (DictReader records) results
    ∧ features doc = omap feature_of_result results
    ∧ (λ f, (Some (prop_name f), Some (prop_address f))) <$> features doc
      `sublist_of` row_record <$> DictReader records.
Proof.
  intros Hrun Hdoc.
  destruct (written_inv _ _ _ _ _ _ _ Hrun Hdoc)
    as (records & results & tr1 & _ & Hcsv & Hrows & _ & ->).
  exists records, results, tr1.
  pose proof (resolved_rows_records _ _ _ _ _ Hrows) as Hrecords.
  assert (features (build_result (sites_of results) (failed_of results)
                      (strftime W tr1)) = omap feature_of_result results) as ->
    by (by rewrite build_result_features, features_of_results).
  repeat split; [done..|].
  rewrite (records_of_results _ _ Hrecords).
  pose proof (features_sublist results) as Hsub.
  apply (fmap_sublist (λ p, (Some p.1, Some p.2))) in Hsub.
  by rewrite <- !list_fmap_compose in Hsub.
Qed.

(** C9.  In the written document [total_sites] counts the resolved rows
    only: with [N] rows read from the table, [total_sites] is [N] minus
    [failed_geocoding], and the two counts add up to [N]. *)
Theorem total_sites_counts_resolved_rows input_csv output_json o tr' doc :
  process_evacuation_sites float_of_str W input_csv output_json [] = (o, tr') →
  written tr' = Some doc →
  ∃ records results tr1,
    csv_records W input_csv = Ok records
    ∧ resolved_rows float_of_str W 1 [OpenRead input_csv]
        (DictReader records) results tr1
    ∧ total_sites (meta doc) = length (sites_of results)
    ∧ total_sites (meta doc) = length (features doc)
    ∧ failed_geocoding (meta doc) = length (failed_of results)
    ∧ total_sites (meta doc)
      = length (DictReader records) - failed_geocoding (meta doc)
    ∧ total_sites (meta doc) + failed_geocoding (meta doc)
      = length (DictReader records).
Proof.
  intros Hrun Hdoc.
  destruct (written_inv _ _ _ _ _ _ _ Hrun Hdoc)
    as (records & results & tr1 & _ & Hcsv & Hrows & _ & ->).
  exists records, results, tr1.
  pose proof (resolved_rows_length _ _ _ _ _ _ _ Hrows) as Hlen.
  pose proof (sites_failed_length results) as Hsum.
  rewrite build_result_features, length_fmap. simpl.
  repeat split; try done; lia.
Qed.

End Document.

(** ** Errors at the boundary *)

Lemma foldl_insert_is_Some (kvs : list (string * cell)) (d : gmap string cell) k :
  is_Some (foldl (λ d kv, <[kv.1 := kv.2]> d) d kvs !! k)
  ↔ k ∈ kvs.*1 ∨ is_Some (d !! k).
Proof.
  revert d. induction kvs as [|[k' v] kvs IH]; intros d; simpl.
  { rewrite elem_of_nil. tauto. }
  rewrite IH, lookup_insert_is_Some, elem_of_cons.
  destruct (decide (k' = k)) as [->|Hne]; intuition congruence.
Qed.

(** A row of [csv.DictReader] has exactly the fields of the header. *)
Lemma dict_row_is_Some fieldnames record k :
  is_Some (dict_row fieldnames record !! k) ↔ k ∈ fieldnames.
Proof.
  unfold dict_row. rewrite foldl_insert_is_Some, fst_zip.
  - rewrite lookup_empty. split; [|tauto]. by intros [?|[? ?]].
  - rewrite length_app, length_fmap, length_replicate. lia.
Qed.

Section Boundary.

Variable float_of_str : string -> option spec_float.
Variable W : world.

(** C7, amended.  Errors at the file boundary abort the run and
    nothing is written.  If the table cannot be opened, the error of
    [open] is propagated before anything is read.  If the header lacks
    the name column or the address column and the table has a data row,
    the first row raises [KeyError] for that column, before any request
    is sent.  If a read raises after some rows, the run ends with that
    exception once those rows have been processed.  And whenever the
    table cannot be opened, a read raises or the output file cannot be
    opened, the run ends in an exception and no document is written. *)
Theorem boundary_errors_abort input_csv output_json :
  (∀ e, csv_records W input_csv = Raise e →
        process_evacuation_sites float_of_str W input_csv output_json []
        = (Raise e, [OpenRead input_csv])
        ∧ written [OpenRead input_csv] = None)
  ∧ (∀ fieldnames rest,
        csv_records W input_csv = Ok (fieldnames :: rest) →
        "施設名" ∉ fieldnames ∨ "所在地" ∉ fieldnames →
        (filter (λ r, r ≠ []) rest) ≠ [] →
        ∃ key,
          process_evacuation_sites float_of_str W input_csv output_json []
          = (Raise (KeyError (PStr key)), [OpenRead input_csv])
          ∧ (key ∉ fieldnames)
          ∧ (key = "施設名" ∨ key = "所在地")
          ∧ written [OpenRead input_csv] = None)
  ∧ (∀ records e results tr1,
        csv_records W input_csv = Ok records →
        csv_error W input_csv = Some e →
        resolved_rows float_of_str W 1 [OpenRead input_csv]
          (DictReader records) results tr1 →
        process_evacuation_sites float_of_str W input_csv output_json []
        = (Raise e, tr1)
        ∧ written tr1 = None)
  ∧ (∀ o tr',
        process_evacuation_sites float_of_str W input_csv output_json []
        = (o, tr') →
        (∃ e, csv_records W input_csv = Raise e)
        ∨ (∃ e, csv_error W input_csv = Some e)
        ∨ writable W output_json = false →
        (∃ e, o = Raise e) ∧ written tr' = None).
Proof.
  assert (∀ o tr',
            process_evacuation_sites float_of_str W input_csv output_json []
            = (o, tr') →
            (∃ e, csv_records W input_csv = Raise e)
            ∨ (∃ e, csv_error W input_csv = Some e)
            ∨ writable W output_json = false →
            (∃ e, o = Raise e) ∧ written tr' = None) as Habort.
  { intros o tr' Hrun Hboundary.
    apply process_evacuation_sites_inv in Hrun
      as [(e & -> & Hd)|(records & results & tr1 & summary & _ & Hcsv & _
                          & Hw & _ & _ & Herr)].
    { split; [by exists e|]. unfold written. by rewrite Hd. }
    destruct Hboundary as [[e He]|[[e He]|Hw']]; congruence. }
  split; [|split; [|split; [|exact Habort]]].
  - intros e Hcsv. split; [|done].
    unfold process_evacuation_sites, bind at 1, open_csv. by rewrite Hcsv.
  - intros fieldnames rest Hcsv Hmissing Hrows.
    unfold process_evacuation_sites, bind at 1, open_csv. rewrite Hcsv.
    cbn [file_records]. unfold DictReader.
    destruct (filter (λ r, r ≠ []) rest) as [|record records]; [done|].
    rewrite fmap_cons. unfold bind at 1.
    cbn [process_rows]. unfold bind at 1, lift, row_getitem.
    destruct (dict_row fieldnames record !! "施設名") as [name|] eqn:Hname.
    + destruct Hmissing as [Hmissing|Hmissing].
      { destruct Hmissing. apply (dict_row_is_Some fieldnames record). eauto. }
      unfold bind at 1.
      destruct (dict_row fieldnames record !! "所在地") as [address|] eqn:Haddress.
      { destruct Hmissing. apply (dict_row_is_Some fieldnames record). eauto. }
      exists "所在地". eauto.
    + exists "施設名". split; [done|]. split; [|by split; [left|]].
      intros Hin. apply (dict_row_is_Some fieldnames record) in Hin.
      rewrite Hname in Hin. by destruct Hin.
  - intros records e results tr1 Hcsv Herr Hrows.
    pose proof (process_evacuation_sites_rows float_of_str W input_csv
                  output_json [] records results tr1 Hcsv Hrows) as Hrun.
    rewrite Herr in Hrun. split; [exact Hrun|].
    apply (Habort _ _ Hrun). right; left. eauto.
Qed.

End Boundary.

(** C7, as stated: a data row that lacks a required column would abort
    the run and leave no document.  It does not: a data row that stops
    after the facility name is read with [None] for its address, goes
    through both providers, and is recorded as a failed site in the
    document the run writes. *)
Lemma short_row_is_recorded_as_failed :
  csv_records Sample.short_row "evacuation_sites.csv"
  = Ok [["施設名"; "所在地"]; ["杉並第一小学校"]]
  ∧ row_record <$> DictReader [["施設名"; "所在地"]; ["杉並第一小学校"]]
    = [(Some (Some "杉並第一小学校"), Some None)]
  ∧ (Sample.run Sample.short_row).1 = Ok ()
  ∧ ∃ doc,
      written (Sample.run Sample.short_row).2 = Some doc
      ∧ features doc = []
      ∧ failed_sites_key doc
        = Some [FailedSite (Some "杉並第一小学校") None].
Proof.
  split; [reflexivity|]. split; [vm_compute; reflexivity|].
  split; [vm_compute; reflexivity|].
  eexists. split; [vm_compute; reflexivity|]. split; reflexivity.
Qed.

(** ** The queries of the two providers *)

(** C6, as stated: the query of the client asked first (GSI) would
    carry a country-code parameter.  It does not. *)
Lemma gsi_query_has_no_country_code :
  ¬ ∃ v, ("countrycodes", v) ∈ gsi_params Sample.address.
Proof.
  intros (v & Hin). unfold gsi_params in Hin.
  apply list_elem_of_singleton in Hin. discriminate.
Qed.

(** C6, amended.  The resolver's first request goes to GSI, whose
    query has the single parameter [q] and whose request has no header.
    The parameters [format=json], [limit=1] and [countrycodes=jp] and
    the [User-Agent] header belong to the Nominatim request, the
    fallback. *)
Theorem provider_queries float_of_str W address tr :
  (∃ rest,
      (geocode_with_fallback float_of_str W address tr).2
      = tr ++ Print (MsgGeocoding address)
             :: HttpGet GSI (gsi_request address) :: rest)
  ∧ gsi_params address = [("q", str_of_cell address)]
  ∧ headers (gsi_request address) = []
  ∧ nominatim_params address
    = [("q", str_of_cell address); ("format", "json"); ("limit", "1");
       ("countrycodes", "jp")]
  ∧ headers (nominatim_request address)
    = [("User-Agent", "EvacuationSiteMapper/1.0")].
Proof.
  split; [|done].
  destruct (geocode_with_fallback float_of_str W address tr) as [o tr'] eqn:Hrun.
  apply geocode_with_fallback_first_request in Hrun as [rest ->]. eauto.
Qed.

(** ** String coordinates from GSI *)

(** C5, at a payload whose coordinates are JSON strings: the GSI client
    returns the pair of strings as it is, which is not a coordinate,
    where the Nominatim client converts the same strings with [float];
    the resolver then raises [ValueError] while formatting its progress
    line. *)
Theorem gsi_client_returns_strings :
  (geocode_address_gsi Sample.malformed Sample.address []).1
  = Ok (Some (PStr "35.7", PStr "139.6"))
  ∧ is_coordinate (PStr "35.7", PStr "139.6") = false
  ∧ (geocode_address_nominatim Sample.float_of_str Sample.fallback
       Sample.address []).1
    = Ok (Some (PFloat Sample.lat, PFloat Sample.lon))
  ∧ (geocode_with_fallback Sample.float_of_str Sample.malformed
       Sample.address []).1
    = Raise ValueError.
Proof. repeat split; vm_compute; reflexivity. Qed.

(** C1, at the same payload: the run is aborted by [ValueError] on the
    first row, so that row and the two after it reach neither list, and
    no document is written. *)
Theorem rows_lost_on_string_coordinates :
  (Sample.run Sample.malformed).1 = Raise ValueError
  ∧ written (Sample.run Sample.malformed).2 = None
  ∧ length (DictReader Sample.table) = 3
  ∧ length (requests_to GSI (Sample.run Sample.malformed).2) = 1.
Proof. repeat split; vm_compute; reflexivity. Qed.

(** ** The theorems at the sample runs *)

Lemma geocode_with_fallback_order_witness :
  (∃ tr',
      geocode_with_fallback Sample.float_of_str Sample.mixed Sample.address []
      = (Ok (Some (PFloat Sample.lat, PFloat Sample.lon)), tr')
      ∧ requests_to Nominatim tr' = requests_to Nominatim []
      ∧ sleeps tr' = sleeps [])
  ∧ (∃ tr',
        geocode_with_fallback Sample.float_of_str Sample.integers
          Sample.address []
        = (Ok (Some (PInt 36, PInt 140)), tr')
        ∧ requests_to Nominatim tr' = requests_to Nominatim []
        ∧ sleeps tr' = sleeps [])
  ∧ (∃ n tr2 tr',
        geocode_address_nominatim Sample.float_of_str Sample.fallback
          Sample.address
          ([Print (MsgGeocoding Sample.address);
            HttpGet GSI (gsi_request Sample.address)] ++ [Sleep 1])
        = (Ok n, tr2)
        ∧ geocode_with_fallback Sample.float_of_str Sample.fallback
            Sample.address [] = (Ok n, tr')
        ∧ requests_to Nominatim tr'
          = requests_to Nominatim [] ++ [nominatim_request Sample.address]
        ∧ sleeps tr' = sleeps [] ++ [1%Q])
  ∧ (∃ e,
        geocode_with_fallback Sample.float_of_str Sample.malformed
          Sample.address []
        = (Raise e,
           [Print (MsgGeocoding Sample.address);
            HttpGet GSI (gsi_request Sample.address)])
        ∧ (e = ValueError ∨ e = TypeError ∨ e = OverflowError)
        ∧ requests_to Nominatim
            [Print (MsgGeocoding Sample.address);
             HttpGet GSI (gsi_request Sample.address)]
          = requests_to Nominatim []
        ∧ sleeps [Print (MsgGeocoding Sample.address);
                  HttpGet GSI (gsi_request Sample.address)]
          = sleeps []).
Proof.
  split; [|split; [|split]].
  - eapply (proj1 (proj2 (geocode_with_fallback_order
                            Sample.float_of_str Sample.mixed Sample.address []))).
    + vm_compute. reflexivity.
    + reflexivity.
    + reflexivity.
  - eapply (proj1 (proj2 (geocode_with_fallback_order
                            Sample.float_of_str Sample.integers
                            Sample.address []))).
    + vm_compute. reflexivity.
    + reflexivity.
    + reflexivity.
  - eapply (proj1 (proj2 (proj2 (geocode_with_fallback_order
                                   Sample.float_of_str Sample.fallback
                                   Sample.address [])))).
    vm_compute. reflexivity.
  - eapply (proj2 (proj2 (proj2 (geocode_with_fallback_order
                                   Sample.float_of_str Sample.malformed
                                   Sample.address []))) (PStr "35.7", PStr "139.6")).
    + vm_compute. reflexivity.
    + by left.
Defined.

Lemma geocode_address_gsi_incomplete_witness :
  geocode_address_gsi_try Sample.incomplete Sample.address []
  = (Ok None, [] ++ [HttpGet GSI (gsi_request Sample.address)])
  ∧ geocode_address_gsi Sample.incomplete Sample.address []
    = (Ok None, [] ++ [HttpGet GSI (gsi_request Sample.address)]).
Proof.
  destruct (geocode_address_gsi_incomplete Sample.incomplete Sample.address []
              (PDict [("type", PStr "Feature")]) [])
    as (Htry & Hclient & _); [reflexivity|reflexivity|].
  split; [exact Htry|exact Hclient].
Defined.

Lemma feature_coordinates_lon_lat_witness :
  ∃ doc results tr1,
    written (Sample.run Sample.mixed).2 = Some doc
    ∧ resolved_rows Sample.float_of_str Sample.mixed 1
        [OpenRead "evacuation_sites.csv"] (DictReader Sample.table) results tr1
    ∧ features doc = omap feature_of_result results
    ∧ coordinates <$> features doc
      = [[PFloat Sample.lon; PFloat Sample.lat];
         [PFloat Sample.lon; PFloat Sample.lat]].
Proof.
  edestruct (proj2 (proj2 (proj2 (feature_coordinates_lon_lat
                                    Sample.float_of_str Sample.mixed)))
               "evacuation_sites.csv" "evacuation_sites_geocoded.json"
               (Sample.run Sample.mixed).1 (Sample.run Sample.mixed).2)
    as (records & results & tr1 & Hcsv & Hrows & Hfeatures).
  - apply surjective_pairing.
  - vm_compute. reflexivity.
  - injection Hcsv as <-. eexists _, results, tr1.
    split; [vm_compute; reflexivity|].
    split; [exact Hrows|]. split; [exact Hfeatures|reflexivity].
Defined.

Lemma failed_sites_key_iff_failure_witness :
  ∃ doc l,
    written (Sample.run Sample.mixed).2 = Some doc
    ∧ failed_sites_key doc = Some l
    ∧ l ≠ []
    ∧ length l = failed_geocoding (meta doc).
Proof.
  edestruct (failed_sites_key_iff_failure Sample.float_of_str Sample.mixed
               "evacuation_sites.csv" "evacuation_sites_geocoded.json"
               (Sample.run Sample.mixed).1 (Sample.run Sample.mixed).2)
    as (records & results & tr1 & _ & _ & _ & _ & Hkey).
  - apply surjective_pairing.
  - vm_compute. reflexivity.
  - eexists _, _. split; [vm_compute; reflexivity|].
    split; [reflexivity|].
    destruct (Hkey _ eq_refl) as (Hne & _ & Hlen). split; [exact Hne|exact Hlen].
Defined.

Lemma features_in_row_order_witness :
  ∃ doc,
    written (Sample.run Sample.mixed).2 = Some doc
    ∧ (λ f, (Some (prop_name f), Some (prop_address f))) <$> features doc
      `sublist_of` row_record <$> DictReader Sample.table.
Proof.
  edestruct (features_in_row_order Sample.float_of_str Sample.mixed
               "evacuation_sites.csv" "evacuation_sites_geocoded.json"
               (Sample.run Sample.mixed).1 (Sample.run Sample.mixed).2)
    as (records & results & tr1 & Hcsv & _ & _ & _ & Hsub).
  - apply surjective_pairing.
  - vm_compute. reflexivity.
  - injection Hcsv as <-. eexists. split; [vm_compute; reflexivity|exact Hsub].
Defined.

Lemma total_sites_counts_resolved_rows_witness :
  ∃ doc,
    written (Sample.run Sample.mixed).2 = Some doc
    ∧ total_sites (meta doc) = 2
    ∧ failed_geocoding (meta doc) = 1
    ∧ total_sites (meta doc) + failed_geocoding (meta doc)
      = length (DictReader Sample.table).
Proof.
  edestruct (total_sites_counts_resolved_rows Sample.float_of_str Sample.mixed
               "evacuation_sites.csv" "evacuation_sites_geocoded.json"
               (Sample.run Sample.mixed).1 (Sample.run Sample.mixed).2)
    as (records & results & tr1 & Hcsv & _ & _ & _ & _ & _ & Hsum).
  - apply surjective_pairing.
  - vm_compute. reflexivity.
  - injection Hcsv as <-. eexists. split; [vm_compute; reflexivity|].
    split; [reflexivity|]. split; [reflexivity|exact Hsum].
Defined.

Lemma boundary_errors_abort_witness :
  (Sample.run Sample.unreadable
   = (Raise (OSError "No such file or directory"),
      [OpenRead "evacuation_sites.csv"])
   ∧ written [OpenRead "evacuation_sites.csv"] = None)
  ∧ (∃ key,
        Sample.run Sample.no_address_column
        = (Raise (KeyError (PStr key)), [OpenRead "evacuation_sites.csv"])
        ∧ (key ∉ ["施設名"; "住所"])
        ∧ (key = "施設名" ∨ key = "所在地")
        ∧ written [OpenRead "evacuation_sites.csv"] = None)
  ∧ (∃ tr1,
        length (requests_to GSI tr1) = 1
        ∧ Sample.run Sample.undecodable = (Raise ValueError, tr1)
        ∧ written tr1 = None)
  ∧ ((∃ e, (Sample.run Sample.unwritable).1 = Raise e)
     ∧ written (Sample.run Sample.unwritable).2 = None).
Proof.
  split; [|split; [|split]].
  - apply (proj1 (boundary_errors_abort Sample.float_of_str Sample.unreadable
                    "evacuation_sites.csv" "evacuation_sites_geocoded.json")).
    reflexivity.
  - eapply (proj1 (proj2 (boundary_errors_abort
                            Sample.float_of_str Sample.no_address_column
                            "evacuation_sites.csv"
                            "evacuation_sites_geocoded.json"))).
    + reflexivity.
    + right. intros Hin. vm_compute in Hin.
      repeat (apply elem_of_cons in Hin as [Hin|Hin]; [discriminate|]).
      by apply elem_of_nil in Hin.
    + discriminate.
  - destruct (process_rows Sample.float_of_str Sample.undecodable 1
                (DictReader Sample.first_rows)
                [] [] [OpenRead "evacuation_sites.csv"])
      as [[[sites failed_sites]|e] tr1] eqn:Hloop;
      [|vm_compute in Hloop; discriminate].
    pose proof Hloop as Htr. vm_compute in Htr. injection Htr as _ _ Htr.
    apply process_rows_ok in Hloop as (results & Hrows & _).
    exists tr1. split; [by rewrite <- Htr|].
    apply (proj1 (proj2 (proj2 (boundary_errors_abort
                                  Sample.float_of_str Sample.undecodable
                                  "evacuation_sites.csv"
                                  "evacuation_sites_geocoded.json")))
             Sample.first_rows ValueError results tr1);
      [reflexivity|reflexivity|exact Hrows].
  - apply (proj2 (proj2 (proj2 (boundary_errors_abort
                                  Sample.float_of_str Sample.unwritable
                                  "evacuation_sites.csv"
                                  "evacuation_sites_geocoded.json")))).
    + apply surjective_pairing.
    + right; right. reflexivity.
Defined.

(** * Further properties of the script *)

(** ** The clients *)

Section ClientFacts.

Variable float_of_str : string -> option spec_float.
Variable W : world.

(** X1.  Whatever the provider answers, each client returns normally,
    after exactly one request.  It prints at most one line, its
    diagnostic, and only when the body of its [try] raised; the result
    is then [None]. *)
Theorem clients_never_raise address tr :
  (∃ g dg,
      geocode_address_gsi W address tr
      = (Ok g, tr ++ HttpGet GSI (gsi_request address) :: dg)
      ∧ (dg = [] ∨ ∃ e, g = None ∧ dg = [Print (MsgGsiError address e)]))
  ∧ (∃ n dn,
        geocode_address_nominatim float_of_str W address tr
        = (Ok n, tr ++ HttpGet Nominatim (nominatim_request address) :: dn)
        ∧ (dn = []
           ∨ ∃ e, n = None ∧ dn = [Print (MsgNominatimError address e)])).
Proof.
  split.
  - apply geocode_address_gsi_shape.
  - apply geocode_address_nominatim_shape.
Qed.

(** X2.  A request that raises is reported: the client prints its
    diagnostic with the address and the exception and returns [None].
    A falsy payload (an empty array, [null], an empty object) is not:
    the client returns [None] and prints nothing. *)
Theorem failed_request_is_reported address tr :
  (∀ e, http W GSI tr (gsi_request address) = Failed e →
        geocode_address_gsi W address tr
        = (Ok None,
           tr ++ [HttpGet GSI (gsi_request address);
                  Print (MsgGsiError address e)]))
  ∧ (∀ e, http W Nominatim tr (nominatim_request address) = Failed e →
          geocode_address_nominatim float_of_str W address tr
          = (Ok None,
             tr ++ [HttpGet Nominatim (nominatim_request address);
                    Print (MsgNominatimError address e)]))
  ∧ (∀ data, http W GSI tr (gsi_request address) = Payload data →
             Py.truthy data = false →
             geocode_address_gsi W address tr
             = (Ok None, tr ++ [HttpGet GSI (gsi_request address)]))
  ∧ (∀ data, http W Nominatim tr (nominatim_request address) = Payload data →
             Py.truthy data = false →
             geocode_address_nominatim float_of_str W address tr
             = (Ok None, tr ++ [HttpGet Nominatim (nominatim_request address)])).
Proof.
  repeat split.
  - intros e Hhttp.
    unfold geocode_address_gsi, try_except, geocode_address_gsi_try,
      bind at 1, urlopen_json.
    rewrite Hhttp. unfold bind, print, emit, ret. by rewrite <- app_assoc.
  - intros e Hhttp.
    unfold geocode_address_nominatim, try_except,
      geocode_address_nominatim_try, bind at 1, urlopen_json.
    rewrite Hhttp. unfold bind, print, emit, ret. by rewrite <- app_assoc.
  - intros data Hhttp Hfalsy.
    unfold geocode_address_gsi, try_except, geocode_address_gsi_try,
      bind at 1, urlopen_json.
    by rewrite Hhttp, Hfalsy.
  - intros data Hhttp Hfalsy.
    unfold geocode_address_nominatim, try_except,
      geocode_address_nominatim_try, bind at 1, urlopen_json.
    by rewrite Hhttp, Hfalsy.
Qed.

(** X3.  A pair returned by the Nominatim client is a pair of floats,
    and no diagnostic was printed for it. *)
Theorem nominatim_returns_floats address tr c tr' :
  geocode_address_nominatim float_of_str W address tr = (Ok (Some c), tr') →
  is_coordinate c = true
  ∧ tr' = tr ++ [HttpGet Nominatim (nominatim_request address)].
Proof.
  intros Hnom. split; [by eapply geocode_address_nominatim_coordinate|].
  destruct (geocode_address_nominatim_shape float_of_str W address tr)
    as (n & dn & Hshape & Hdn).
  rewrite Hshape in Hnom. injection Hnom as -> <-.
  by destruct Hdn as [->|(e & ? & _)].
Qed.

End ClientFacts.

(** ** The resolver, case by case *)

Section ResolverCases.

Variable float_of_str : string -> option spec_float.
Variable W : world.

(** The three ways a call of the resolver can go: GSI answers and the
    pair formats; GSI answers and formatting raises; GSI returns [None]
    and Nominatim decides. *)
Lemma geocode_with_fallback_cases address tr :
  (∃ c,
      is_number c.1 = true ∧ is_number c.2 = true
      ∧ geocode_with_fallback float_of_str W address tr
        = (Ok (Some c),
           tr ++ [Print (MsgGeocoding address);
                  HttpGet GSI (gsi_request address);
                  Print (MsgSuccessGsi c)]))
  ∨ (∃ c e,
        geocode_address_gsi W address (tr ++ [Print (MsgGeocoding address)])
        = (Ok (Some c),
           tr ++ [Print (MsgGeocoding address);
                  HttpGet GSI (gsi_request address)])
        ∧ (is_number c.1 = false ∨ is_number c.2 = false)
        ∧ (e = ValueError ∨ e = TypeError ∨ e = OverflowError)
        ∧ geocode_with_fallback float_of_str W address tr
          = (Raise e,
             tr ++ [Print (MsgGeocoding address);
                    HttpGet GSI (gsi_request address)]))
  ∨ (∃ dg n dn,
        at_most_one_line dg ∧ at_most_one_line dn
        ∧ (∀ c, n = Some c → is_coordinate c = true)
        ∧ geocode_with_fallback float_of_str W address tr
          = (Ok n,
             tr ++ [Print (MsgGeocoding address);
                    HttpGet GSI (gsi_request address)]
                ++ dg
                ++ [Sleep 1; HttpGet Nominatim (nominatim_request address)]
                ++ dn
                ++ [Print match n with
                          | Some c => MsgSuccessNominatim c
                          | None => MsgFailure
                          end])).
Proof.
  destruct (geocode_address_gsi_shape W address
              (tr ++ [Print (MsgGeocoding address)])) as (g & dg & Hgsi & Hdg).
  rewrite <- app_assoc in Hgsi. simpl in Hgsi.
  remember (geocode_with_fallback float_of_str W address tr) as res eqn:Hres.
  unfold geocode_with_fallback, bind at 1, print at 1, emit in Hres.
  unfold bind at 1 in Hres. rewrite Hgsi in Hres.
  destruct g as [c|].
  - destruct Hdg as [->|(e & ? & _)]; [|done].
    unfold bind at 1, print_success, bind at 1, lift in Hres.
    destruct (Py.format_6f c.1) as [[]|e] eqn:H1.
    + unfold bind at 1 in Hres.
      destruct (Py.format_6f c.2) as [[]|e] eqn:H2.
      * left. exists c. apply format_6f_is_number in H1, H2.
        split; [done|]. split; [done|]. rewrite Hres.
        unfold bind, print, emit, ret. by rewrite <- app_assoc.
      * right; left. exists c, e. split; [done|]. split.
        { right. destruct (is_number c.2) eqn:Hn; [|done].
          apply format_6f_is_number in Hn. congruence. }
        split; [by eapply format_6f_raises|by rewrite Hres].
    + right; left. exists c, e. split; [done|]. split.
      { left. destruct (is_number c.1) eqn:Hn; [|done].
        apply format_6f_is_number in Hn. congruence. }
      split; [by eapply format_6f_raises|by rewrite Hres].
  - right; right.
    unfold bind at 1, sleep, emit in Hres. unfold bind at 1 in Hres.
    destruct (geocode_address_nominatim_shape float_of_str W address
                ((tr ++ Print (MsgGeocoding address)
                      :: HttpGet GSI (gsi_request address) :: dg) ++ [Sleep 1]))
      as (n & dn & Hnom & Hdn).
    rewrite Hnom in Hres.
    assert (∀ c, n = Some c → is_coordinate c = true) as Hcoord.
    { intros c ->. by eapply geocode_address_nominatim_coordinate. }
    exists dg, n, dn.
    split; [destruct Hdg as [->|(e & _ & ->)]; [by left|right; eauto]|].
    split; [destruct Hdn as [->|(e & _ & ->)]; [by left|right; eauto]|].
    split; [done|]. rewrite Hres.
    destruct n as [c|].
    + unfold bind. rewrite print_success_coordinate by auto.
      f_equal. repeat (rewrite <- app_assoc; simpl). reflexivity.
    + unfold bind, print, emit, ret.
      f_equal. repeat (rewrite <- app_assoc; simpl). reflexivity.
Qed.

End ResolverCases.



Lemma requests_to_print p m l : requests_to p (Print m :: l) = requests_to p l.
Proof. reflexivity. Qed.

Lemma requests_to_sleep p s l : requests_to p (Sleep s :: l) = requests_to p l.
Proof. reflexivity. Qed.

Lemma requests_to_get p q r l :
  requests_to p (HttpGet q r :: l)
  = match p, q with
    | GSI, GSI | Nominatim, Nominatim => r :: requests_to p l
    | _, _ => requests_to p l
    end.
Proof. by destruct p, q. Qed.

Lemma sleeps_print m l : sleeps (Print m :: l) = sleeps l.
Proof. reflexivity. Qed.

Lemma sleeps_get q r l : sleeps (HttpGet q r :: l) = sleeps l.
Proof. reflexivity. Qed.

Lemma sleeps_sleep s l : sleeps (Sleep s :: l) = s :: sleeps l.
Proof. reflexivity. Qed.

Ltac count_events :=
  rewrite ?requests_to_app, ?sleeps_app, ?requests_to_print,
    ?requests_to_sleep, ?requests_to_get, ?sleeps_print, ?sleeps_get,
    ?sleeps_sleep.

Lemma at_most_one_line_quiet p dg :
  at_most_one_line dg → requests_to p dg = [] ∧ sleeps dg = [].
Proof. apply quiet_diagnostic. Qed.

Lemma pauses_cons fb fallbacks :
  pauses (fb :: fallbacks)
  = (if fb then [1%Q; 1 # 2] else [1 # 2]) ++ pauses fallbacks.
Proof. reflexivity. Qed.

Section Effects.

Variable float_of_str : string -> option spec_float.
Variable W : world.

(** What a returning call of the resolver adds to the trace: one GSI
    request, and, when it fell back, a pause of 1 second and one
    Nominatim request.  A call that returns [None] fell back, and a
    pair it returns is a pair of numbers. *)
Lemma geocode_with_fallback_effects address tr c tr' :
  geocode_with_fallback float_of_str W address tr = (Ok c, tr') →
  ∃ fb : bool,
    requests_to GSI tr' = requests_to GSI tr ++ [gsi_request address]
    ∧ requests_to Nominatim tr'
      = requests_to Nominatim tr
        ++ (if fb then [nominatim_request address] else [])
    ∧ sleeps tr' = sleeps tr ++ (if fb then [1%Q] else [])
    ∧ (c = None → fb = true)
    ∧ (∀ x, c = Some x → is_number x.1 = true ∧ is_number x.2 = true).
Proof.
  intros Hrun.
  destruct (geocode_with_fallback_cases float_of_str W address tr)
    as [(x & H1 & H2 & Hhit)|[(x & e & _ & _ & _ & Hraise)
                             |(dg & n & dn & Hdg & Hdn & Hcoord & Hfb)]].
  - rewrite Hhit in Hrun. injection Hrun as <- <-. exists false.
    repeat (progress count_events). simpl. rewrite ?app_nil_r.
    split; [done|]. split; [done|]. split; [done|]. split; [done|].
    by intros ? [= <-].
  - rewrite Hraise in Hrun. discriminate.
  - rewrite Hfb in Hrun. injection Hrun as <- <-. exists true.
    destruct (at_most_one_line_quiet GSI dg Hdg) as [HdgG HdgS].
    destruct (at_most_one_line_quiet Nominatim dg Hdg) as [HdgN _].
    destruct (at_most_one_line_quiet GSI dn Hdn) as [HdnG HdnS].
    destruct (at_most_one_line_quiet Nominatim dn Hdn) as [HdnN _].
    repeat (progress count_events).
    rewrite ?HdgG, ?HdgS, ?HdgN, ?HdnG, ?HdnS, ?HdnN. simpl.
    split; [done|]. split; [done|]. split; [done|]. split; [done|].
    intros x ->. specialize (Hcoord x eq_refl).
    apply andb_prop in Hcoord as [? ?]. split; by apply is_float_is_number.
Qed.

(** The same for a whole loop, with one flag per row. *)
Lemma resolved_rows_effects idx tr rows results tr' :
  resolved_rows float_of_str W idx tr rows results tr' →
  ∃ fallbacks,
    length fallbacks = length results
    ∧ requests_to GSI tr'
      = requests_to GSI tr ++ ((λ r, gsi_request (rr_address r)) <$> results)
    ∧ requests_to Nominatim tr'
      = requests_to Nominatim tr ++ fallback_requests results fallbacks
    ∧ sleeps tr' = sleeps tr ++ pauses fallbacks
    ∧ Forall2 (λ r (fb : bool), rr_coords r = None → fb = true)
        results fallbacks
    ∧ Forall (λ r, ∀ x, rr_coords r = Some x →
                        is_number x.1 = true ∧ is_number x.2 = true) results.
Proof.
  induction 1 as [idx tr|idx tr row rest name address c tr1 results tr'
                           Hname Haddress Hres _ IH].
  { exists []. rewrite !app_nil_r.
    split; [done|]. split; [done|]. split; [done|]. split; [done|].
    split; constructor. }
  destruct IH as (fallbacks & Hlen & HG & HN & HS & Hfb & Hnum).
  apply geocode_with_fallback_effects in Hres
    as (fb & HG1 & HN1 & HS1 & Hnone & Hsome).
  rewrite requests_to_app in HG, HN, HG1, HN1.
  rewrite sleeps_app in HS, HS1. simpl in HG, HN, HS, HG1, HN1, HS1.
  rewrite !app_nil_r in *.
  exists (fb :: fallbacks). split; [|split; [|split; [|split; [|split]]]].
  - simpl. by rewrite Hlen.
  - rewrite HG, HG1, fmap_cons. simpl. by rewrite <- app_assoc.
  - rewrite HN, HN1. simpl. by rewrite <- app_assoc.
  - rewrite HS, HS1, pauses_cons. destruct fb; by rewrite <- !app_assoc.
  - by constructor.
  - by constructor.
Qed.

End Effects.



Lemma numbers_in_features results :
  Forall (λ r, ∀ x, rr_coords r = Some x →
                    is_number x.1 = true ∧ is_number x.2 = true) results →
  Forall (λ f, ∃ lon lat, coordinates f = [lon; lat]
                          ∧ is_number lon = true ∧ is_number lat = true)
    (omap feature_of_result results).
Proof.
  induction 1 as [|r results Hr _ IH]; [constructor|].
  change (omap feature_of_result (r :: results))
    with (match feature_of_result r with
          | Some f => f :: omap feature_of_result results
          | None => omap feature_of_result results
          end).
  unfold feature_of_result at 1.
  destruct (rr_coords r) as [c|]; [|exact IH].
  constructor; [|exact IH].
  destruct (Hr c eq_refl) as [Hlat Hlon]. exists c.2, c.1. eauto.
Qed.

Section RunFacts.

Variable float_of_str : string -> option spec_float.
Variable W : world.

(** The trace of a run that wrote a document. *)
Lemma written_trace input_csv output_json o tr' doc :
  process_evacuation_sites float_of_str W input_csv output_json [] = (o, tr') →
  written tr' = Some doc →
  ∃ records results tr1,
    csv_records W input_csv = Ok records
    ∧ resolved_rows float_of_str W 1 [OpenRead input_csv]
        (DictReader records) results tr1
    ∧ doc = build_result (sites_of results) (failed_of results) (strftime W tr1)
    ∧ tr' = tr1 ++ OpenWrite output_json :: JsonDump output_json doc
                :: (Print <$> summary_lines output_json (sites_of results)
                                (failed_of results)).
Proof.
  intros Hrun Hdoc.
  destruct (written_inv _ _ _ _ _ _ _ Hrun Hdoc)
    as (records & results & tr1 & _ & Hcsv & Hrows & Hw & ->).
  exists records, results, tr1. repeat split; [done..|].
  pose proof (written_read_to_end _ _ _ _ _ _ _ Hrun Hdoc) as Herr.
  rewrite (process_evacuation_sites_complete float_of_str W input_csv
             output_json [] records results tr1 Hcsv Herr Hrows), Hw in Hrun.
  by injection Hrun as _ <-.
Qed.

(** A run that returns has written its document. *)
Lemma written_of_completed input_csv output_json tr' :
  process_evacuation_sites float_of_str W input_csv output_json []
  = (Ok (), tr') →
  ∃ doc, written tr' = Some doc.
Proof.
  intros Hrun.
  apply process_evacuation_sites_inv in Hrun
    as [(e & [=] & _)|(records & results & tr1 & summary & _ & _ & _ & _
                        & -> & Hd & _)].
  eexists. unfold written. rewrite dumped_app, Hd.
  change (dumped (?a :: ?b :: ?l)) with (dumped [a] ++ dumped [b] ++ dumped l).
  rewrite dumped_prints. reflexivity.
Qed.

End RunFacts.

(** ** The resolver and the run *)

Section Extras.

Variable float_of_str : string -> option spec_float.
Variable W : world.

(** X4.  The resolver raises only while formatting a pair returned by
    the GSI client: the exception is [ValueError], [TypeError] or
    [OverflowError], one of the two values is not a number, and nothing
    has happened since the GSI request, so Nominatim was not asked. *)
Theorem resolver_raises_only_when_formatting address tr e tr' :
  geocode_with_fallback float_of_str W address tr = (Raise e, tr') →
  (e = ValueError ∨ e = TypeError ∨ e = OverflowError)
  ∧ tr' = tr ++ [Print (MsgGeocoding address);
                 HttpGet GSI (gsi_request address)]
  ∧ ∃ c, geocode_address_gsi W address (tr ++ [Print (MsgGeocoding address)])
         = (Ok (Some c), tr')
         ∧ (is_number c.1 = false ∨ is_number c.2 = false).
Proof.
  intros Hrun.
  destruct (geocode_with_fallback_cases float_of_str W address tr)
    as [(c & _ & _ & Hhit)|[(c & e' & Hgsi & Hnum & He & Hraise)
                           |(dg & n & dn & _ & _ & _ & Hfb)]].
  - rewrite Hhit in Hrun. discriminate.
  - rewrite Hraise in Hrun. injection Hrun as <- <-. eauto.
  - rewrite Hfb in Hrun. discriminate.
Qed.

Lemma resolved_rows_exist rows :
  (∀ a tr c tr1, geocode_address_gsi W a tr = (Ok (Some c), tr1) →
                 is_number c.1 = true ∧ is_number c.2 = true) →
  Forall (λ row : gmap string cell,
            is_Some (row !! "施設名") ∧ is_Some (row !! "所在地")) rows →
  ∀ idx tr, ∃ results tr', resolved_rows float_of_str W idx tr rows results tr'.
Proof.
  intros Hgsi. induction 1 as [|row rows [[name Hname] [address Haddress]] _ IH];
    intros idx tr.
  { eauto using resolved_nil. }
  destruct (geocode_with_fallback_cases float_of_str W address
              (tr ++ [Print (MsgProgress idx)]))
    as [(c & _ & _ & Hhit)|[(c & e & Hc & Hnum & _ & _)
                           |(dg & n & dn & _ & _ & _ & Hfb)]].
  - destruct (IH (S idx) ((tr ++ [Print (MsgProgress idx)])
                           ++ [Print (MsgGeocoding address);
                               HttpGet GSI (gsi_request address);
                               Print (MsgSuccessGsi c)] ++ [Sleep (1 # 2)]))
      as (results & tr' & Hrows).
    rewrite app_assoc in Hrows. eauto using resolved_cons.
  - apply Hgsi in Hc as [H1 H2]. destruct Hnum; congruence.
  - match type of Hfb with _ = (_, ?t) =>
      destruct (IH (S idx) (t ++ [Sleep (1 # 2)])) as (results & tr' & Hrows)
    end.
    eauto using resolved_cons.
Qed.

(** X5.  When the table opens and is read to its end without a read
    raising, its header names both columns, the GSI client returns
    only pairs of numbers, and the output file can be opened, the run
    returns and writes a document that accounts for every data row,
    whatever else the providers do and however long or short the rows
    are. *)
Theorem run_completes input_csv output_json fieldnames rest :
  csv_records W input_csv = Ok (fieldnames :: rest) →
  csv_error W input_csv = None →
  "施設名" ∈ fieldnames →
  "所在地" ∈ fieldnames →
  (∀ a tr c tr1, geocode_address_gsi W a tr = (Ok (Some c), tr1) →
                 is_number c.1 = true ∧ is_number c.2 = true) →
  writable W output_json = true →
  ∃ tr' doc,
    process_evacuation_sites float_of_str W input_csv output_json []
    = (Ok (), tr')
    ∧ written tr' = Some doc
    ∧ (total_sites (meta doc) + failed_geocoding (meta doc))%nat
      = length (filter (λ r, r ≠ []) rest).
Proof.
  intros Hcsv Herr Hname Haddress Hgsi Hw.
  assert (Forall (λ row : gmap string cell,
                    is_Some (row !! "施設名") ∧ is_Some (row !! "所在地"))
            (DictReader (fieldnames :: rest))) as Hrows.
  { unfold DictReader. apply Forall_fmap, Forall_forall. intros record _.
    simpl. by rewrite !dict_row_is_Some. }
  destruct (resolved_rows_exist _ Hgsi Hrows 1 [OpenRead input_csv])
    as (results & tr1 & Hres).
  pose proof (process_evacuation_sites_complete float_of_str W input_csv
                output_json [] _ results tr1 Hcsv Herr Hres) as Hrun.
  rewrite Hw in Hrun.
  destruct (written_of_completed _ _ _ _ _ Hrun) as [doc Hdoc].
  eexists _, doc. split; [exact Hrun|]. split; [exact Hdoc|].
  destruct (written_inv _ _ _ _ _ _ _ Hrun Hdoc)
    as (records' & results' & tr1' & _ & Hcsv' & Hres' & _ & ->).
  rewrite Hcsv in Hcsv'. injection Hcsv' as <-.
  apply resolved_rows_length in Hres'. simpl.
  rewrite sites_failed_length, Hres'. unfold DictReader.
  by rewrite length_fmap.
Qed.



(** X8.  Every feature of a written document has exactly two
    coordinates, and both are numbers: a string, [null], an array or an
    object returned by a provider never reaches the document. *)
Theorem written_coordinates_are_numbers input_csv output_json o tr' doc :
  process_evacuation_sites float_of_str W input_csv output_json [] = (o, tr') →
  written tr' = Some doc →
  Forall (λ f, ∃ lon lat, coordinates f = [lon; lat]
                          ∧ is_number lon = true ∧ is_number lat = true)
    (features doc).
Proof.
  intros Hrun Hdoc.
  destruct (written_trace _ _ _ _ _ _ _ Hrun Hdoc)
    as (records & results & tr1 & Hcsv & Hrows & -> & _).
  destruct (resolved_rows_effects _ _ _ _ _ _ _ Hrows)
    as (fallbacks & _ & _ & _ & _ & _ & Hnum).
  rewrite build_result_features, features_of_results.
  by apply numbers_in_features.
Qed.

(** X9.  A table without data rows (an empty file, a header alone, a
    header followed by blank lines) that is read to its end is not an
    error, even when the header lacks the two columns: no request is
    sent, and the document written has no feature, zero counts and no
    ["failed_sites"] key. *)
Theorem empty_table_run input_csv output_json records :
  csv_records W input_csv = Ok records →
  csv_error W input_csv = None →
  DictReader records = [] →
  writable W output_json = true →
  process_evacuation_sites float_of_str W input_csv output_json []
  = (Ok (),
     [OpenRead input_csv; OpenWrite output_json;
      JsonDump output_json
        {| doc_type := "FeatureCollection";
           features := [];
           meta := {| title := "杉並区震災救援所";
                      total_sites := 0;
                      failed_geocoding := 0;
                      generated_at := strftime W [OpenRead input_csv] |};
           failed_sites_key := None |};
      Print MsgRule; Print MsgDone; Print (MsgSucceeded 0);
      Print (MsgFailedCount 0); Print (MsgOutputFile output_json)]).
Proof.
  intros Hcsv Herr Hrows Hw.
  rewrite (process_evacuation_sites_complete float_of_str W input_csv
             output_json [] records [] [OpenRead input_csv] Hcsv Herr), Hw;
    [done|].
  rewrite Hrows. apply resolved_nil.
Qed.

(** X10.  The output file is opened only after the last row.  If the
    table is read to its end, every row resolves and the file cannot be
    opened, the run raises [OSError] at that point: every request has
    been sent, one to GSI per row, and nothing is written. *)
Theorem unwritable_output_fails_last input_csv output_json records results tr1 :
  csv_records W input_csv = Ok records →
  csv_error W input_csv = None →
  resolved_rows float_of_str W 1 [OpenRead input_csv]
    (DictReader records) results tr1 →
  writable W output_json = false →
  process_evacuation_sites float_of_str W input_csv output_json []
  = (Raise (OSError output_json), tr1 ++ [OpenWrite output_json])
  ∧ written (tr1 ++ [OpenWrite output_json]) = None
  ∧ length (requests_to GSI (tr1 ++ [OpenWrite output_json]))
    = length (DictReader records).
Proof.
  intros Hcsv Herr Hrows Hw.
  pose proof (process_evacuation_sites_complete float_of_str W input_csv
                output_json [] records results tr1 Hcsv Herr Hrows) as Hrun.
  rewrite Hw in Hrun. split; [exact Hrun|].
  apply process_evacuation_sites_inv in Hrun
    as [(e & _ & Hd)|(? & ? & ? & ? & [=] & _)].
  split; [unfold written; by rewrite Hd|].
  destruct (resolved_rows_effects _ _ _ _ _ _ _ Hrows)
    as (fallbacks & _ & HG & _).
  rewrite requests_to_app, HG. simpl. rewrite app_nil_r, length_fmap.
  by apply resolved_rows_length in Hrows.
Qed.

(** X11.  After the dump the run prints its summary and nothing else:
    the counts are those of the document's metadata, and the failed
    sites listed are those under the document's ["failed_sites"] key,
    in order, with their heading only when the key is there. *)
Theorem summary_matches_document input_csv output_json o tr' doc :
  process_evacuation_sites float_of_str W input_csv output_json [] = (o, tr') →
  written tr' = Some doc →
  ∃ before,
    tr' = before
          ++ JsonDump output_json doc
             :: (Print
                 <$> [MsgRule; MsgDone; MsgSucceeded (total_sites (meta doc));
                      MsgFailedCount (failed_geocoding (meta doc));
                      MsgOutputFile output_json]
                     ++ match failed_sites_key doc with
                        | None => []
                        | Some l =>
                            MsgFailedHeader
                            :: ((λ s, MsgFailedSite (failed_name s)
                                        (failed_address s)) <$> l)
                        end).
Proof.
  intros Hrun Hdoc.
  destruct (written_trace _ _ _ _ _ _ _ Hrun Hdoc)
    as (records & results & tr1 & Hcsv & Hrows & -> & ->).
  exists (tr1 ++ [OpenWrite output_json]).
  rewrite <- app_assoc. simpl. unfold summary_lines.
  by destruct (failed_of results).
Qed.

End Extras.

(** ** Rows, one after the other *)

Lemma bind_prefix {A B} (m : M A) (k : A → M B) tr o tr' :
  (∀ a, emits (λ _, True) (k a)) →
  bind m k tr = (o, tr') →
  ∃ o1 tr1 new, m tr = (o1, tr1) ∧ tr' = tr1 ++ new.
Proof.
  intros Hk. unfold bind. destruct (m tr) as [[a|e] tr1].
  - intros Hrun. apply Hk in Hrun as (new & -> & _). eauto.
  - intros [= <- <-]. exists (Raise e), tr1, []. by rewrite app_nil_r.
Qed.

Lemma emits_print_failed P l : (∀ m, P (Print m)) → emits P (print_failed l).
Proof.
  intros HP. induction l as [|s l IH]; simpl.
  - apply emits_ret.
  - apply emits_bind; [by apply emits_emit|intros _; exact IH].
Qed.

Section Rows.

Variable float_of_str : string -> option spec_float.
Variable W : world.

(** X13.  The loop over a table that is the concatenation of two is the
    loop over the first followed by the loop over the second, started
    with the lists and the trace the first one left and with the row
    counter moved on; an exception in the first part ends both. *)
Theorem process_rows_app rows1 rows2 idx sites failed_sites tr :
  process_rows float_of_str W idx (rows1 ++ rows2) sites failed_sites tr
  = match process_rows float_of_str W idx rows1 sites failed_sites tr with
    | (Ok (sites1, failed_sites1), tr1) =>
        process_rows float_of_str W (idx + length rows1) rows2
          sites1 failed_sites1 tr1
    | (Raise e, tr1) => (Raise e, tr1)
    end.
Proof.
  revert idx sites failed_sites tr.
  induction rows1 as [|row rows1 IH]; intros idx sites failed_sites tr.
  { simpl. unfold ret. by rewrite Nat.add_0_r. }
  cbn [app process_rows length]. unfold bind, lift, print, sleep, emit.
  destruct (row_getitem row "施設名") as [name|e]; [|done].
  destruct (row_getitem row "所在地") as [address|e]; [|done].
  destruct (geocode_with_fallback _ _ _ _) as [[c|e] tr1]; [|done].
  replace (idx + S (length rows1)) with (S idx + length rows1) by lia.
  destruct c as [c|]; apply IH.
Qed.

Lemma process_rows_first_row idx row rest sites failed_sites tr o tr'
    name address :
  row !! "施設名" = Some name →
  row !! "所在地" = Some address →
  process_rows float_of_str W idx (row :: rest) sites failed_sites tr
  = (o, tr') →
  ∃ more,
    tr' = tr ++ Print (MsgProgress idx) :: Print (MsgGeocoding address)
             :: HttpGet GSI (gsi_request address) :: more.
Proof.
  intros Hname Haddress. cbn [process_rows].
  unfold bind at 1, lift, row_getitem. rewrite Hname.
  unfold bind at 1. rewrite Haddress.
  unfold bind at 1, print, emit. intros Hrun.
  apply bind_prefix in Hrun as (o1 & tr1 & new & Hres & ->).
  - apply geocode_with_fallback_first_request in Hres as [more ->].
    exists (more ++ new). rewrite <- !app_assoc. reflexivity.
  - intros [c|]; (apply emits_bind; [by apply emits_emit|intros _]);
      by apply emits_process_rows.
Qed.

(** X12.  A data row that stops after the facility name does not abort
    the run and is not skipped: [csv.DictReader] fills the address with
    [None], and the first request of the run asks GSI for the text
    [None]. *)
Theorem short_row_is_geocoded_as_None input_csv output_json name rest :
  csv_records W input_csv = Ok (["施設名"; "所在地"] :: [name] :: rest) →
  ∃ o more,
    process_evacuation_sites float_of_str W input_csv output_json []
    = (o, [OpenRead input_csv; Print (MsgProgress 1);
           Print (MsgGeocoding None); HttpGet GSI (gsi_request None)]
          ++ more)
    ∧ full_url (gsi_request None)
      = "https://msearch.gsi.go.jp/address-search/AddressSearch?q=None".
Proof.
  intros Hcsv.
  destruct (process_evacuation_sites float_of_str W input_csv output_json [])
    as [o tr'] eqn:Hrun.
  unfold process_evacuation_sites, bind at 1, open_csv in Hrun.
  rewrite Hcsv in Hrun. cbn [file_records] in Hrun.
  apply bind_prefix in Hrun as (o1 & tr1 & new & Hrows & ->).
  - unfold DictReader in Hrows. rewrite filter_cons_True in Hrows by done.
    rewrite fmap_cons in Hrows.
    apply (process_rows_first_row _ _ _ _ _ _ _ _ (Some name) None)
      in Hrows as [more ->].
    + exists o, (more ++ new). split; [|reflexivity].
      f_equal; simpl; by rewrite <- ?app_assoc.
    + unfold dict_row. simpl. rewrite lookup_insert_ne by done.
      apply lookup_insert_eq.
    + unfold dict_row. simpl. apply lookup_insert_eq.
  - intros [sites failed_sites].
    unfold time_strftime, open_write.
    apply emits_bind; [apply emits_lift|intros _].
    apply emits_bind; [by intros ? ? ? [= <- <-]; exists []; rewrite app_nil_r|].
    intros now. apply emits_bind.
    { intros ? ? ? [= <- <-]. eauto. }
    intros _. repeat (apply emits_bind; [by apply emits_emit|intros _]).
    destruct failed_sites; [apply emits_ret|].
    apply emits_bind; [by apply emits_emit|intros _].
    by apply emits_print_failed.
Qed.

End Rows.

(** ** The query string *)

Lemma quote_plus_byte (a : ascii) :
  (if Py.is_unreserved a then is_query_byte a
   else if (nat_of_ascii a =? 32)%nat then is_query_byte "+"
   else is_query_byte "%"
        && is_query_byte (Py.hex_digit (nat_of_ascii a / 16))
        && is_query_byte (Py.hex_digit (nat_of_ascii a mod 16))) = true.
Proof. destruct a as [[] [] [] [] [] [] [] []]; vm_compute; reflexivity. Qed.

Lemma quote_plus_safe s : string_forall is_query_byte (Py.quote_plus s) = true.
Proof.
  induction s as [|a s IH]; [done|]. cbn [Py.quote_plus].
  pose proof (quote_plus_byte a) as Ha.
  destruct (Py.is_unreserved a).
  - cbn [string_forall]. by rewrite Ha, IH.
  - destruct (nat_of_ascii a =? 32)%nat.
    + cbn [string_forall]. by rewrite Ha, IH.
    + cbn [string_forall].
      apply andb_prop in Ha as [[H1 H2]%andb_prop H3].
      by rewrite H1, H2, H3, IH.
Qed.

(** X14.  Whatever the address, the URL requested from either provider
    is the fixed endpoint, [q=] and the quoted address (followed, for
    Nominatim, by the three fixed parameters), and the quoted address
    consists of unreserved characters, [+] and [%] only: no raw space,
    [&], [=], [#] or non-ASCII byte of an address reaches the URL. *)
Theorem request_urls_are_safe address :
  full_url (gsi_request address)
  = ("https://msearch.gsi.go.jp/address-search/AddressSearch?q="
     ++ Py.quote_plus (str_of_cell address))%string
  ∧ full_url (nominatim_request address)
    = ("https://nominatim.openstreetmap.org/search?q="
       ++ Py.quote_plus (str_of_cell address)
       ++ "&format=json&limit=1&countrycodes=jp")%string
  ∧ string_forall is_query_byte (Py.quote_plus (str_of_cell address)) = true.
Proof.
  split; [reflexivity|]. split; [reflexivity|]. apply quote_plus_safe.
Qed.

(** ** The further properties at the sample runs *)

Lemma failed_request_is_reported_witness :
  geocode_address_gsi Sample.unreadable Sample.address []
  = (Ok None,
     [] ++ [HttpGet GSI (gsi_request Sample.address);
            Print (MsgGsiError Sample.address (OSError "connection refused"))])
  ∧ geocode_address_nominatim Sample.float_of_str Sample.mixed
      Sample.address []
    = (Ok None, [] ++ [HttpGet Nominatim (nominatim_request Sample.address)]).
Proof.
  split.
  - apply (proj1 (failed_request_is_reported Sample.float_of_str
                    Sample.unreadable Sample.address [])).
    reflexivity.
  - apply (proj2 (proj2 (proj2 (failed_request_is_reported
                                  Sample.float_of_str Sample.mixed
                                  Sample.address []))) (PList [])).
    + reflexivity.
    + reflexivity.
Defined.

Lemma nominatim_returns_floats_witness :
  is_coordinate (PFloat Sample.lat, PFloat Sample.lon) = true
  ∧ [HttpGet Nominatim (nominatim_request Sample.address)]
    = [] ++ [HttpGet Nominatim (nominatim_request Sample.address)].
Proof.
  apply (nominatim_returns_floats Sample.float_of_str Sample.fallback
           Sample.address []).
  vm_compute. reflexivity.
Defined.

Lemma resolver_raises_only_when_formatting_witness :
  (ValueError = ValueError ∨ ValueError = TypeError
   ∨ ValueError = OverflowError)
  ∧ [Print (MsgGeocoding Sample.address);
     HttpGet GSI (gsi_request Sample.address)]
    = [] ++ [Print (MsgGeocoding Sample.address);
             HttpGet GSI (gsi_request Sample.address)].
Proof.
  destruct (resolver_raises_only_when_formatting Sample.float_of_str
              Sample.malformed Sample.address [] ValueError
              [Print (MsgGeocoding Sample.address);
               HttpGet GSI (gsi_request Sample.address)])
    as (He & Htr & _); [vm_compute; reflexivity|].
  split; [exact He|exact Htr].
Defined.

Lemma mixed_gsi_returns_numbers a tr c tr1 :
  geocode_address_gsi Sample.mixed a tr = (Ok (Some c), tr1) →
  is_number c.1 = true ∧ is_number c.2 = true.
Proof.
  unfold geocode_address_gsi, try_except, geocode_address_gsi_try,
    bind at 1, urlopen_json.
  change (http Sample.mixed GSI tr (gsi_request a))
    with (default (Failed (OSError "connection refused"))
            ([Sample.gsi_hit; Sample.no_match; Sample.no_match]
               !! length (requests_to GSI tr))).
  destruct (length (requests_to GSI tr)) as [|[|[|n]]]; cbn;
    intros [= <- _]; done.
Defined.

Lemma run_completes_witness :
  ∃ tr' doc,
    Sample.run Sample.mixed = (Ok (), tr')
    ∧ written tr' = Some doc
    ∧ (total_sites (meta doc) + failed_geocoding (meta doc))%nat
      = length (filter (λ r, r ≠ []) (tail Sample.table)).
Proof.
  apply (run_completes Sample.float_of_str Sample.mixed
           "evacuation_sites.csv" "evacuation_sites_geocoded.json"
           ["施設名"; "所在地"] (tail Sample.table)).
  - reflexivity.
  - reflexivity.
  - apply list_elem_of_here.
  - apply list_elem_of_further, list_elem_of_here.
  - apply mixed_gsi_returns_numbers.
  - reflexivity.
Defined.



Lemma written_coordinates_are_numbers_witness :
  ∃ doc,
    written (Sample.run Sample.mixed).2 = Some doc
    ∧ Forall (λ f, ∃ lon lat, coordinates f = [lon; lat]
                              ∧ is_number lon = true ∧ is_number lat = true)
        (features doc).
Proof.
  eexists. split; [vm_compute; reflexivity|].
  apply (written_coordinates_are_numbers Sample.float_of_str Sample.mixed
           "evacuation_sites.csv" "evacuation_sites_geocoded.json"
           (Sample.run Sample.mixed).1 (Sample.run Sample.mixed).2).
  - apply surjective_pairing.
  - vm_compute. reflexivity.
Defined.

Lemma empty_table_run_witness :
  ∃ doc,
    written (Sample.run Sample.header_only).2 = Some doc
    ∧ features doc = []
    ∧ failed_sites_key doc = None
    ∧ requests_to GSI (Sample.run Sample.header_only).2 = [].
Proof.
  unfold Sample.run.
  rewrite (empty_table_run Sample.float_of_str Sample.header_only
             "evacuation_sites.csv" "evacuation_sites_geocoded.json"
             [["名称"; "住所"]; []; []]); [|reflexivity..].
  eexists. repeat split.
Defined.

Lemma unwritable_output_fails_last_witness :
  ∃ tr1,
    Sample.run Sample.unwritable
    = (Raise (OSError "evacuation_sites_geocoded.json"),
       tr1 ++ [OpenWrite "evacuation_sites_geocoded.json"])
    ∧ written (tr1 ++ [OpenWrite "evacuation_sites_geocoded.json"]) = None
    ∧ length (requests_to GSI
                (tr1 ++ [OpenWrite "evacuation_sites_geocoded.json"]))
      = length (DictReader Sample.table).
Proof.
  destruct (process_rows Sample.float_of_str Sample.unwritable 1
              (DictReader Sample.table) [] [] [OpenRead "evacuation_sites.csv"])
    as [[[sites failed_sites]|e] tr1] eqn:Hloop;
    [|vm_compute in Hloop; discriminate].
  apply process_rows_ok in Hloop as (results & Hrows & _).
  exists tr1.
  apply (unwritable_output_fails_last Sample.float_of_str Sample.unwritable
           "evacuation_sites.csv" "evacuation_sites_geocoded.json"
           Sample.table results tr1);
    [reflexivity|reflexivity|exact Hrows|reflexivity].
Defined.

Lemma summary_matches_document_witness :
  ∃ doc before l,
    written (Sample.run Sample.mixed).2 = Some doc
    ∧ failed_sites_key doc = Some l
    ∧ (Sample.run Sample.mixed).2
      = before
        ++ JsonDump "evacuation_sites_geocoded.json" doc
           :: (Print
               <$> [MsgRule; MsgDone; MsgSucceeded (total_sites (meta doc));
                    MsgFailedCount (failed_geocoding (meta doc));
                    MsgOutputFile "evacuation_sites_geocoded.json"]
                   ++ MsgFailedHeader
                      :: ((λ s, MsgFailedSite (failed_name s) (failed_address s))
                          <$> l)).
Proof.
  edestruct (summary_matches_document Sample.float_of_str Sample.mixed
               "evacuation_sites.csv" "evacuation_sites_geocoded.json"
               (Sample.run Sample.mixed).1 (Sample.run Sample.mixed).2)
    as (before & Htr).
  - apply surjective_pairing.
  - vm_compute. reflexivity.
  - eexists _, before, _. split; [vm_compute; reflexivity|].
    split; [reflexivity|exact Htr].
Defined.

Lemma short_row_is_geocoded_as_None_witness :
  ∃ o more,
    Sample.run Sample.short_row
    = (o, [OpenRead "evacuation_sites.csv"; Print (MsgProgress 1);
           Print (MsgGeocoding None); HttpGet GSI (gsi_request None)]
          ++ more)
    ∧ full_url (gsi_request None)
      = "https://msearch.gsi.go.jp/address-search/AddressSearch?q=None".
Proof.
  apply (short_row_is_geocoded_as_None Sample.float_of_str Sample.short_row
           "evacuation_sites.csv" "evacuation_sites_geocoded.json"
           "杉並第一小学校" []).
  reflexivity.
Defined.
